(** * Voice Orb: the voice activity detector, the animation controller
      and the orchestrator that wires them

    A shallow embedding of [voice-orb-vad.js] (class [VoiceActivityDetector]),
    [voice-orb-core.js] (class [VoiceOrbCore]) and [voice-orb.js]
    (class [VoiceOrbAdvanced]).

    Conventions of the embedding.
    - JavaScript numbers that carry audio levels, speeds and opacities are
      IEEE doubles in the source; here they are exact rationals [Q], so
      rounding is idealised away.  Timestamps ([Date.now()], milliseconds)
      and the two durations of the configuration are integers [Z].
    - A method of a class is a computation in a small state-and-trace monad:
      it reads and writes the object ([this]) and appends to the trace
      every [this.trigger(...)] it performs, together with a snapshot of
      what a listener called at that moment would read from the object.
    - [Date.now()] and the analyser's byte frequency data are inputs of the
      methods that read them. *)

From Stdlib Require Import ZArith QArith Qminmax Lqa Lia List Bool String.
From stdpp Require Import base gmap strings.
Import ListNotations.

Local Open Scope Z_scope.

(** ** The state-and-trace monad *)

Module Eff.
Section Eff.
Context {S E : Type}.

Definition M (A : Type) : Type := S -> A * S * list E.

Definition ret {A} (a : A) : M A := fun s => (a, s, []).

Definition bind {A B} (k : A -> M B) (m : M A) : M B :=
  fun s =>
    let '(a, s1, t1) := m s in
    let '(b, s2, t2) := k a s1 in
    (b, s2, t1 ++ t2).

Definition get : M S := fun s => (s, s, []).
Definition modify (f : S -> S) : M unit := fun s => (tt, f s, []).
Definition emit (e : E) : M unit := fun s => (tt, s, [e]).

Definition when (b : bool) (m : M unit) : M unit :=
  if b then m else ret tt.

Definition result {A} (m : M A) (s : S) : A := fst (fst (m s)).
Definition final {A} (m : M A) (s : S) : S := snd (fst (m s)).
Definition trace {A} (m : M A) (s : S) : list E := snd (m s).
End Eff.

#[global] Instance eff_ret {S E} : MRet (@M S E) := @ret S E.
#[global] Instance eff_bind {S E} : MBind (@M S E) := @bind S E.
End Eff.

(** ** voice-orb-vad.js: [VoiceActivityDetector] *)

Module VAD.

(** [this.config]: the tunables and the audio settings.  The callback
    slots and [debug] only feed listeners and the console. *)
Record Config := mkConfig {
  threshold : Q;
  minDuration : Z;
  maxSilence : Z;
  sensitivity : Q;
  smoothing : Q;
  fftSize : Z;
  sampleRate : Z
}.

Definition defaultConfig : Config :=
  {| threshold := 1 # 100;
     minDuration := 150;
     maxSilence := 800;
     sensitivity := 6 # 10;
     smoothing := 85 # 100;
     fftSize := 256;
     sampleRate := 44100 |}.

(** [this.state] *)
Record State := mkState {
  isActive : bool;
  isVoiceDetected : bool;
  currentLevel : Q;
  smoothedLevel : Q;
  lastVoiceTime : Z;
  voiceStartTime : Z;
  silenceStartTime : Z;
  isConnected : bool
}.

Definition initialState : State :=
  {| isActive := false;
     isVoiceDetected := false;
     currentLevel := 0;
     smoothedLevel := 0;
     lastVoiceTime := 0;
     voiceStartTime := 0;
     silenceStartTime := 0;
     isConnected := false |}.

Definition set_isActive (b : bool) (s : State) : State :=
  mkState b (isVoiceDetected s) (currentLevel s) (smoothedLevel s)
          (lastVoiceTime s) (voiceStartTime s) (silenceStartTime s)
          (isConnected s).
Definition set_isVoiceDetected (b : bool) (s : State) : State :=
  mkState (isActive s) b (currentLevel s) (smoothedLevel s)
          (lastVoiceTime s) (voiceStartTime s) (silenceStartTime s)
          (isConnected s).
Definition set_currentLevel (q : Q) (s : State) : State :=
  mkState (isActive s) (isVoiceDetected s) q (smoothedLevel s)
          (lastVoiceTime s) (voiceStartTime s) (silenceStartTime s)
          (isConnected s).
Definition set_smoothedLevel (q : Q) (s : State) : State :=
  mkState (isActive s) (isVoiceDetected s) (currentLevel s) q
          (lastVoiceTime s) (voiceStartTime s) (silenceStartTime s)
          (isConnected s).
Definition set_lastVoiceTime (t : Z) (s : State) : State :=
  mkState (isActive s) (isVoiceDetected s) (currentLevel s) (smoothedLevel s)
          t (voiceStartTime s) (silenceStartTime s) (isConnected s).
Definition set_voiceStartTime (t : Z) (s : State) : State :=
  mkState (isActive s) (isVoiceDetected s) (currentLevel s) (smoothedLevel s)
          (lastVoiceTime s) t (silenceStartTime s) (isConnected s).
Definition set_silenceStartTime (t : Z) (s : State) : State :=
  mkState (isActive s) (isVoiceDetected s) (currentLevel s) (smoothedLevel s)
          (lastVoiceTime s) (voiceStartTime s) t (isConnected s).
Definition set_isConnected (b : bool) (s : State) : State :=
  mkState (isActive s) (isVoiceDetected s) (currentLevel s) (smoothedLevel s)
          (lastVoiceTime s) (voiceStartTime s) (silenceStartTime s) b.

(** The events of [trigger], with their payload. *)
Inductive Event :=
| VoiceStart
| VoiceEnd
| VoiceLevel (raw smoothed : Q) (timestamp : Z)
| Error.

Definition eventName (e : Event) : string :=
  match e with
  | VoiceStart => "voiceStart"
  | VoiceEnd => "voiceEnd"
  | VoiceLevel _ _ _ => "voiceLevel"
  | Error => "error"
  end.

(** One [trigger]: the event, and [this.state] as a listener called
    synchronously by that [trigger] reads it through [getState()]. *)
Record Emission := mkEmission {
  event : Event;
  seen : State
}.

(** Callbacks stored in [this.eventListeners].  The three closures that
    [VoiceOrbAdvanced.setupVADHandlers] registers are named; any other
    listener belongs to the host page. *)
Inductive Listener :=
| OrbPlay
| OrbPause
| OrbVoiceLevel
| Host (id : nat).

(** The detector object.  [scheduled] is the environment's queue of
    pending [requestAnimationFrame(analyze)] callbacks and [nextFrame]
    the next request id it hands out. *)
Record Detector := mkDetector {
  config : Config;
  state : State;
  animationFrame : option positive;
  eventListeners : gmap string (list Listener);
  scheduled : list positive;
  nextFrame : positive
}.

Abbreviation M := (@Eff.M Detector Emission).

Definition with_state (f : State -> State) (d : Detector) : Detector :=
  mkDetector (config d) (f (state d)) (animationFrame d)
             (eventListeners d) (scheduled d) (nextFrame d).

Definition update (f : State -> State) : M unit :=
  Eff.modify (with_state f).

(** [new VoiceActivityDetector(options)] *)
Definition create (cfg : Config) : Detector :=
  {| config := cfg;
     state := initialState;
     animationFrame := None;
     eventListeners := ∅;
     scheduled := [];
     nextFrame := 1%positive |}.

(** [trigger(event, data)] *)
Definition trigger (e : Event) : M unit :=
  d ← Eff.get;
  Eff.emit {| event := e; seen := state d |}.

(** [on(event, callback)] *)
Definition on (name : string) (cb : Listener) (d : Detector) : Detector :=
  let ls := match eventListeners d !! name with
            | Some l => l
            | None => []
            end in
  mkDetector (config d) (state d) (animationFrame d)
             (<[name := ls ++ [cb]]> (eventListeners d))
             (scheduled d) (nextFrame d).

(** [updateConfig(newConfig)], for a full replacement of the tunables. *)
Definition updateConfig (cfg : Config) (d : Detector) : Detector :=
  mkDetector cfg (state d) (animationFrame d)
             (eventListeners d) (scheduled d) (nextFrame d).

(** [resetVADState()] *)
Definition resetVADState : M unit :=
  (update (set_isVoiceDetected false) ;;
   update (set_lastVoiceTime 0) ;;
   update (set_voiceStartTime 0) ;;
   update (set_silenceStartTime 0) ;;
   update (set_currentLevel 0) ;;
   update (set_smoothedLevel 0)).

(** [a > b] on levels *)
Definition Qgtb (a b : Q) : bool := negb (Qle_bool a b).

(** [processVoiceActivity(level)], with the value of [Date.now()]. *)
Definition processVoiceActivity (level : Q) (now : Z) : M unit :=
  (d ← Eff.get;
   update (set_smoothedLevel
             (smoothedLevel (state d) * smoothing (config d)
              + level * (1 - smoothing (config d)))%Q) ;;
   update (set_currentLevel level) ;;
   d ← Eff.get;
   trigger (VoiceLevel level (smoothedLevel (state d)) now) ;;
   let isAboveThreshold :=
     Qgtb (smoothedLevel (state d)) (threshold (config d)) in
   (if isAboveThreshold then
      update (set_lastVoiceTime now) ;;
      d ← Eff.get;
      if negb (isVoiceDetected (state d)) then
        if voiceStartTime (state d) =? 0 then
          update (set_voiceStartTime now)
        else if now - voiceStartTime (state d) >=? minDuration (config d) then
          update (set_isVoiceDetected true) ;;
          update (set_silenceStartTime 0) ;;
          trigger VoiceStart
        else mret tt
      else mret tt
    else
      d ← Eff.get;
      Eff.when (isVoiceDetected (state d) && (silenceStartTime (state d) =? 0))
               (update (set_silenceStartTime now)) ;;
      d ← Eff.get;
      Eff.when (negb (isVoiceDetected (state d)))
               (update (set_voiceStartTime 0))) ;;
   d ← Eff.get;
   if isVoiceDetected (state d) && (silenceStartTime (state d) >? 0) then
     if now - silenceStartTime (state d) >=? maxSilence (config d) then
       update (set_isVoiceDetected false) ;;
       update (set_voiceStartTime 0) ;;
       update (set_silenceStartTime 0) ;;
       trigger VoiceEnd
     else mret tt
   else mret tt).

(** [requestAnimationFrame(analyze)]: the environment queues the callback
    and returns its request id. *)
Definition requestAnimationFrame : M positive :=
  fun d =>
    let id := nextFrame d in
    (id,
     mkDetector (config d) (state d) (animationFrame d) (eventListeners d)
                (scheduled d ++ [id]) (Pos.succ id),
     []).

(** [cancelAnimationFrame(id)] *)
Definition cancelAnimationFrame (id : positive) : M unit :=
  Eff.modify (fun d =>
    mkDetector (config d) (state d) (animationFrame d) (eventListeners d)
               (filter (fun i => negb (Pos.eqb i id)) (scheduled d))
               (nextFrame d)).

Definition set_animationFrame (f : option positive) : M unit :=
  Eff.modify (fun d =>
    mkDetector (config d) (state d) f (eventListeners d)
               (scheduled d) (nextFrame d)).

(** The body of the [analyze] closure of [startAnalysis()].  [data] is
    what [getByteFrequencyData] writes into [this.dataArray] (bytes,
    [frequencyBinCount] of them, which is never zero once connected);
    [now] is [Date.now()]. *)
Definition analyze (data : list Z) (now : Z) : M unit :=
  d ← Eff.get;
  if negb (isActive (state d)) then mret tt
  else
    let sum := fold_left Z.add data 0 in
    let average := (inject_Z sum / inject_Z (Z.of_nat (length data)))%Q in
    let normalizedLevel :=
      ((average / 255) * sensitivity (config d))%Q in
    processVoiceActivity normalizedLevel now ;;
    id ← requestAnimationFrame;
    set_animationFrame (Some id).

(** [startAnalysis()]: it calls [analyze()] once, synchronously. *)
Definition startAnalysis (data : list Z) (now : Z) : M unit :=
  analyze data now.

(** [start()]; [data] and [now] are read by the first analysis tick. *)
Definition start (data : list Z) (now : Z) : M bool :=
  d ← Eff.get;
  if negb (isConnected (state d)) then mret false
  else if isActive (state d) then mret true
  else
    resetVADState ;;
    update (set_isActive true) ;;
    startAnalysis data now ;;
    mret true.

(** [stop()] *)
Definition stop : M bool :=
  d ← Eff.get;
  if negb (isActive (state d)) then mret true
  else
    update (set_isActive false) ;;
    d ← Eff.get;
    match animationFrame d with
    | Some id => cancelAnimationFrame id ;; set_animationFrame None
    | None => mret tt
    end ;;
    d ← Eff.get;
    Eff.when (isVoiceDetected (state d))
             (update (set_isVoiceDetected false) ;; trigger VoiceEnd) ;;
    mret true.

(** [connect()]: [granted] tells whether [getUserMedia] resolved. *)
Definition connect (granted : bool) : M bool :=
  if granted then update (set_isConnected true) ;; mret true
  else trigger Error ;; mret false.

(** [disconnect()] *)
Definition disconnect : M unit :=
  stop ;;
  update (set_isConnected false).

(** A frame callback fires: the environment takes request [id] off its
    queue and runs [analyze]. *)
Definition frame (id : positive) (data : list Z) (now : Z) : M unit :=
  d ← Eff.get;
  if existsb (Pos.eqb id) (scheduled d) then
    Eff.modify (fun d =>
      mkDetector (config d) (state d) (animationFrame d) (eventListeners d)
                 (filter (fun i => negb (Pos.eqb i id)) (scheduled d))
                 (nextFrame d)) ;;
    analyze data now
  else mret tt.

(** Feeding samples: one [processVoiceActivity] per [(level, now)], the
    trace of each tick kept apart. *)
Fixpoint feed (samples : list (Q * Z)) (d : Detector)
  : Detector * list (list Emission) :=
  match samples with
  | [] => (d, [])
  | (level, now) :: rest =>
      let '(_, d1, t) := processVoiceActivity level now d in
      let '(d2, ts) := feed rest d1 in
      (d2, t :: ts)
  end.

Definition isEvent (e : Event) (m : Emission) : bool :=
  match e, event m with
  | VoiceStart, VoiceStart => true
  | VoiceEnd, VoiceEnd => true
  | VoiceLevel _ _ _, VoiceLevel _ _ _ => true
  | Error, Error => true
  | _, _ => false
  end.

(** Does a tick's trace hold a [voiceStart] (a [voiceEnd])? *)
Definition firesStart (t : list Emission) : bool := existsb (isEvent VoiceStart) t.
Definition firesEnd (t : list Emission) : bool := existsb (isEvent VoiceEnd) t.

(** *** The rest of the detector's interface *)

#[global] Instance Listener_eq_dec : EqDecision Listener.
Proof. solve_decision. Defined.

(** [listeners.indexOf(callback)] followed by [listeners.splice(index, 1)]:
    the first registration of the callback goes, if there is one. *)
Fixpoint removeFirst (cb : Listener) (ls : list Listener) : list Listener :=
  match ls with
  | [] => []
  | l :: rest => if decide (l = cb) then rest else l :: removeFirst cb rest
  end.

(** [off(event, callback)] *)
Definition off (name : string) (cb : Listener) (d : Detector) : Detector :=
  match eventListeners d !! name with
  | Some ls =>
      mkDetector (config d) (state d) (animationFrame d)
                 (<[name := removeFirst cb ls]> (eventListeners d))
                 (scheduled d) (nextFrame d)
  | None => d
  end.

(** The callbacks [trigger] runs for an event name, in order. *)
Definition listenersOf (name : string) (d : Detector) : list Listener :=
  match eventListeners d !! name with
  | Some ls => ls
  | None => []
  end.

(** An options object: the keys it holds, with their values. *)
Record ConfigPatch := mkPatch {
  p_threshold : option Q;
  p_minDuration : option Z;
  p_maxSilence : option Z;
  p_sensitivity : option Q;
  p_smoothing : option Q;
  p_fftSize : option Z;
  p_sampleRate : option Z
}.

Definition noOptions : ConfigPatch :=
  mkPatch None None None None None None None.

(** [Object.keys(options).length > 0] *)
Definition hasKeys (p : ConfigPatch) : bool :=
  match p with
  | mkPatch None None None None None None None => false
  | _ => true
  end.

(** [{ ...cfg, ...options }] *)
Definition spread (cfg : Config) (p : ConfigPatch) : Config :=
  {| threshold := default (threshold cfg) (p_threshold p);
     minDuration := default (minDuration cfg) (p_minDuration p);
     maxSilence := default (maxSilence cfg) (p_maxSilence p);
     sensitivity := default (sensitivity cfg) (p_sensitivity p);
     smoothing := default (smoothing cfg) (p_smoothing p);
     fftSize := default (fftSize cfg) (p_fftSize p);
     sampleRate := default (sampleRate cfg) (p_sampleRate p) |}.

(** [updateConfig(newConfig)] for an options object. *)
Definition updateConfigWith (p : ConfigPatch) (d : Detector) : Detector :=
  updateConfig (spread (config d) p) d.

(** [new VoiceActivityDetector(options)] for an options object. *)
Definition createWith (p : ConfigPatch) : Detector :=
  create (spread defaultConfig p).

(** [destroy()] *)
Definition destroy : M unit :=
  disconnect ;;
  Eff.modify (fun d =>
    mkDetector (config d) (state d) (animationFrame d) ∅
               (scheduled d) (nextFrame d)).

(** What the page and the environment do to a detector: the calls of its
    lifecycle methods, and frame callbacks that come due. *)
Inductive Op :=
| OpConnect (granted : bool)
| OpStart (data : list Z) (now : Z)
| OpStop
| OpDisconnect
| OpFrame (id : positive) (data : list Z) (now : Z).

Definition perform (o : Op) : M unit :=
  match o with
  | OpConnect granted => connect granted ;; mret tt
  | OpStart data now => start data now ;; mret tt
  | OpStop => stop ;; mret tt
  | OpDisconnect => disconnect
  | OpFrame id data now => frame id data now
  end.

Fixpoint session (ops : list Op) : M unit :=
  match ops with
  | [] => mret tt
  | o :: rest => perform o ;; session rest
  end.

End VAD.

(** ** voice-orb-core.js: [VoiceOrbCore] *)

Module Core.

(** [this.config], without the callback slots and [debug]. *)
Record Config := mkConfig {
  defaultSpeed : Q;
  minSpeed : Q;
  maxSpeed : Q;
  autoLoop : bool;
  minOpacity : Q;
  maxOpacity : Q;
  minVoiceLevel : Q;
  maxVoiceLevel : Q
}.

Definition defaultConfig : Config :=
  {| defaultSpeed := 1;
     minSpeed := 1 # 10;
     maxSpeed := 3;
     autoLoop := true;
     minOpacity := 8 # 10;
     maxOpacity := 1;
     minVoiceLevel := 1 # 10;
     maxVoiceLevel := 3 |}.

(** [this.state] *)
Record State := mkState {
  isInitialized : bool;
  isPlaying : bool;
  isLooping : bool;
  currentSpeed : Q;
  voiceLevel : Q;
  opacity : Q
}.

(** The animated player element, as far as the controller drives it:
    [play()], [pause()], [stop()], and the properties [loop], [speed],
    [style.opacity] and [src].  Its methods and setters are taken not to
    throw, so the [catch] branches of the controller are never entered. *)
Inductive Playback := Playing | Paused | Stopped.

Record Player := mkPlayer {
  playback : Playback;
  loop : bool;
  speed : Q;
  style_opacity : Q;
  src : string
}.

Record Orb := mkOrb {
  config : Config;
  state : State;
  player : option Player;
  playerId : option string;
  eventListeners : gmap string (list nat)
}.

Inductive Event :=
| Ready
| Play
| Pause
| Stop
| SpeedChange (speed : Q)
| LoopChange (loop : bool)
| OpacityChange (opacity : Q)
| VoiceChange (level opacity : Q)
| Complete
| Error
| Destroy.

(** One [trigger]: the event with its payload, and what a listener called
    by it reads from the controller and from the player. *)
Record Emission := mkEmission {
  event : Event;
  seen : State;
  seenPlayer : option Player
}.

Abbreviation M := (@Eff.M Orb Emission).

(** [new VoiceOrbCore(options)] *)
Definition create (cfg : Config) : Orb :=
  {| config := cfg;
     state := {| isInitialized := false;
                 isPlaying := false;
                 isLooping := true;
                 currentSpeed := defaultSpeed cfg;
                 voiceLevel := 1;
                 opacity := 1 |};
     player := None;
     playerId := None;
     eventListeners := ∅ |}.

Definition update (f : State -> State) : M unit :=
  Eff.modify (fun o =>
    mkOrb (config o) (f (state o)) (player o) (playerId o) (eventListeners o)).

(** An assignment to, or a method call on, [this.player]. *)
Definition onPlayer (f : Player -> Player) : M unit :=
  Eff.modify (fun o =>
    mkOrb (config o) (state o) (option_map f (player o)) (playerId o)
          (eventListeners o)).

Definition set_isPlaying (b : bool) (s : State) : State :=
  mkState (isInitialized s) b (isLooping s) (currentSpeed s) (voiceLevel s)
          (opacity s).
Definition set_isLooping (b : bool) (s : State) : State :=
  mkState (isInitialized s) (isPlaying s) b (currentSpeed s) (voiceLevel s)
          (opacity s).
Definition set_currentSpeed (q : Q) (s : State) : State :=
  mkState (isInitialized s) (isPlaying s) (isLooping s) q (voiceLevel s)
          (opacity s).
Definition set_voiceLevel (q : Q) (s : State) : State :=
  mkState (isInitialized s) (isPlaying s) (isLooping s) (currentSpeed s) q
          (opacity s).
Definition set_opacity (q : Q) (s : State) : State :=
  mkState (isInitialized s) (isPlaying s) (isLooping s) (currentSpeed s)
          (voiceLevel s) q.
Definition set_isInitialized (b : bool) (s : State) : State :=
  mkState b (isPlaying s) (isLooping s) (currentSpeed s) (voiceLevel s)
          (opacity s).

Definition p_playback (b : Playback) (p : Player) : Player :=
  mkPlayer b (loop p) (speed p) (style_opacity p) (src p).
Definition p_loop (b : bool) (p : Player) : Player :=
  mkPlayer (playback p) b (speed p) (style_opacity p) (src p).
Definition p_speed (q : Q) (p : Player) : Player :=
  mkPlayer (playback p) (loop p) q (style_opacity p) (src p).
Definition p_opacity (q : Q) (p : Player) : Player :=
  mkPlayer (playback p) (loop p) (speed p) q (src p).
Definition p_src (a : string) (p : Player) : Player :=
  mkPlayer (playback p) (loop p) (speed p) (style_opacity p) a.

(** [trigger(event, data)] *)
Definition trigger (e : Event) : M unit :=
  o ← Eff.get;
  Eff.emit {| event := e; seen := state o; seenPlayer := player o |}.

(** [on(event, callback)] *)
Definition on (name : string) (cb : nat) (o : Orb) : Orb :=
  let ls := match eventListeners o !! name with
            | Some l => l
            | None => []
            end in
  mkOrb (config o) (state o) (player o) (playerId o)
        (<[name := ls ++ [cb]]> (eventListeners o)).

(** [isReady()] *)
Definition isReady (o : Orb) : bool :=
  isInitialized (state o) && match player o with Some _ => true | None => false end.

(** [Math.max(lo, Math.min(hi, x))] *)
Definition clamp (lo hi x : Q) : Q := Qmax lo (Qmin hi x).

(** [play()] *)
Definition play : M bool :=
  o ← Eff.get;
  if negb (isReady o) then mret false
  else
    onPlayer (p_playback Playing) ;;
    update (set_isPlaying true) ;;
    trigger Play ;;
    mret true.

(** [pause()] *)
Definition pause : M bool :=
  o ← Eff.get;
  if negb (isReady o) then mret false
  else
    onPlayer (p_playback Paused) ;;
    update (set_isPlaying false) ;;
    trigger Pause ;;
    mret true.

(** [stop()] *)
Definition stop : M bool :=
  o ← Eff.get;
  if negb (isReady o) then mret false
  else
    onPlayer (p_playback Stopped) ;;
    update (set_isPlaying false) ;;
    trigger Stop ;;
    mret true.

(** [setSpeed(speed)] *)
Definition setSpeed (speed : Q) : M bool :=
  o ← Eff.get;
  if negb (isReady o) then mret false
  else
    let clampedSpeed := Qmax (minSpeed (config o)) (Qmin (maxSpeed (config o)) speed) in
    onPlayer (p_speed clampedSpeed) ;;
    update (set_currentSpeed clampedSpeed) ;;
    trigger (SpeedChange clampedSpeed) ;;
    mret true.

(** [setLoop(loop)] *)
Definition setLoop (loop : bool) : M bool :=
  o ← Eff.get;
  if negb (isReady o) then mret false
  else
    onPlayer (p_loop loop) ;;
    update (set_isLooping loop) ;;
    trigger (LoopChange loop) ;;
    mret true.

(** [setVoiceLevel(level)] *)
Definition setVoiceLevel (level : Q) : M bool :=
  o ← Eff.get;
  if negb (isReady o) then mret false
  else
    let clampedLevel :=
      Qmax (minVoiceLevel (config o)) (Qmin (maxVoiceLevel (config o)) level) in
    setSpeed clampedLevel ;;
    let opacity :=
      Qmax (minOpacity (config o))
           (Qmin (maxOpacity (config o)) (clampedLevel / 2)) in
    onPlayer (p_opacity opacity) ;;
    update (set_voiceLevel clampedLevel) ;;
    update (set_opacity opacity) ;;
    trigger (VoiceChange clampedLevel opacity) ;;
    mret true.

(** [setOpacity(opacity)] *)
Definition setOpacity (opacity : Q) : M bool :=
  o ← Eff.get;
  if negb (isReady o) then mret false
  else
    let clampedOpacity := Qmax 0 (Qmin 1 opacity) in
    onPlayer (p_opacity clampedOpacity) ;;
    update (set_opacity clampedOpacity) ;;
    trigger (OpacityChange clampedOpacity) ;;
    mret true.

(** The argument [playerElement] of [init]: an id with what
    [document.getElementById] returns for it, an element with its id (or
    the generated one), or anything else. *)
Inductive PlayerElement :=
| ById (id : string) (found : option Player)
| ByElement (p : Player) (id : string)
| Invalid.

Definition setPlayer (p : option Player) (id : string) : M unit :=
  Eff.modify (fun o => mkOrb (config o) (state o) p (Some id) (eventListeners o)).

(** The part of [init] after a player element has been found. *)
Definition initPlayer (animationSource : option string) : M bool :=
  match animationSource with
  | Some a => onPlayer (p_src a)
  | None => mret tt
  end ;;
  o ← Eff.get;
  onPlayer (p_loop (isLooping (state o))) ;;
  onPlayer (p_speed (currentSpeed (state o))) ;;
  update (set_isInitialized true) ;;
  trigger Ready ;;
  mret true.

(** [init(playerElement, animationSource)]; the [throw]s land in its
    [catch], which triggers [error] and returns failure. *)
Definition init (playerElement : PlayerElement) (animationSource : option string)
  : M bool :=
  match playerElement with
  | ById id None => setPlayer None id ;; trigger Error ;; mret false
  | ById id (Some p) => setPlayer (Some p) id ;; initPlayer animationSource
  | ByElement p id => setPlayer (Some p) id ;; initPlayer animationSource
  | Invalid => trigger Error ;; mret false
  end.

(** *** The rest of the controller's interface *)

(** The handler of the player's [complete] event, set up by
    [setupEventListeners()]. *)
Definition onComplete : M unit :=
  o ← Eff.get;
  if negb (isLooping (state o)) then
    update (set_isPlaying false) ;;
    trigger Complete
  else mret tt.

(** [destroy()] *)
Definition destroy : M unit :=
  update (set_isInitialized false) ;;
  Eff.modify (fun o => mkOrb (config o) (state o) None None ∅) ;;
  trigger Destroy.

(** The calls a page makes on a controller, and the player finishing. *)
Inductive Op :=
| OpPlay
| OpPause
| OpStop
| OpSetSpeed (speed : Q)
| OpSetLoop (loop : bool)
| OpSetOpacity (opacity : Q)
| OpSetVoiceLevel (level : Q)
| OpComplete.

Definition perform (op : Op) : M bool :=
  match op with
  | OpPlay => play
  | OpPause => pause
  | OpStop => stop
  | OpSetSpeed speed => setSpeed speed
  | OpSetLoop loop => setLoop loop
  | OpSetOpacity opacity => setOpacity opacity
  | OpSetVoiceLevel level => setVoiceLevel level
  | OpComplete => onComplete ;; mret true
  end.

Fixpoint session (ops : list Op) : M unit :=
  match ops with
  | [] => mret tt
  | op :: rest => perform op ;; session rest
  end.

End Core.

(** ** voice-orb.js: [VoiceOrbAdvanced] *)

Module Orchestrator.

Record Advanced := mkAdvanced {
  orb : Core.Orb;
  vad : option VAD.Detector;
  isConnected : bool;
  isVADActive : bool
}.

(** A call made on [this.orb] by one of the closures of
    [setupVADHandlers]. *)
Inductive Call :=
| CallPlay
| CallPause
| CallSetVoiceLevel (level : Q).

Definition perform (c : Call) : Core.M unit :=
  match c with
  | CallPlay => Core.play ;; mret tt
  | CallPause => Core.pause ;; mret tt
  | CallSetVoiceLevel level => Core.setVoiceLevel level ;; mret tt
  end.

(** The bodies of the three closures.  A closure of the host page makes
    no call on the orb here.  [data.smoothed] of a payload that is not a
    level record throws, and the detector's [trigger] catches it. *)
Definition listenerCalls (l : VAD.Listener) (e : VAD.Event) : list Call :=
  match l with
  | VAD.OrbPlay => [CallPlay]
  | VAD.OrbPause => [CallPause]
  | VAD.OrbVoiceLevel =>
      match e with
      | VAD.VoiceLevel _ smoothed _ =>
          let level := Qmax (1 # 10) (Qmin 3 (smoothed * 3)) in
          [CallSetVoiceLevel level]
      | _ => []
      end
  | VAD.Host _ => []
  end.

(** [setupVADHandlers()] *)
Definition setupVADHandlers (a : Advanced) : Advanced :=
  match vad a with
  | None => a
  | Some v =>
      let v1 := VAD.on "voiceStart" VAD.OrbPlay v in
      let v2 := VAD.on "voiceEnd" VAD.OrbPause v1 in
      let v3 := VAD.on "voiceLevel" VAD.OrbVoiceLevel v2 in
      mkAdvanced (orb a) (Some v3) (isConnected a) (isVADActive a)
  end.

(** [new VoiceOrbAdvanced(options)]; [vadCfg] is [None] for
    [enableVAD: false]. *)
Definition create (orbCfg : Core.Config) (vadCfg : option VAD.Config) : Advanced :=
  setupVADHandlers
    {| orb := Core.create orbCfg;
       vad := option_map VAD.create vadCfg;
       isConnected := false;
       isVADActive := false |}.

(** The listener loop of the detector's [trigger]: the callbacks stored
    under the event's name, in registration order. *)
Definition triggered (listeners : gmap string (list VAD.Listener))
           (m : VAD.Emission) : list Call :=
  match listeners !! VAD.eventName (VAD.event m) with
  | Some ls => concat (map (fun l => listenerCalls l (VAD.event m)) ls)
  | None => []
  end.

Fixpoint performAll (cs : list Call) : Core.M unit :=
  match cs with
  | [] => mret tt
  | c :: rest => perform c ;; performAll rest
  end.

(** A method of the detector run inside the orchestrator: the detector
    changes, and every event it triggers reaches the closures, which act
    on the orb.  The closures touch only the orb and the detector's
    methods only the detector, so the calls are gathered per trigger and
    performed in order. *)
Definition runVAD {A} (m : VAD.M A) (a : Advanced)
  : option A * Advanced * list Call * list Core.Emission :=
  match vad a with
  | None => (None, a, [], [])
  | Some v =>
      let '(r, v1, t) := m v in
      let calls := concat (map (triggered (VAD.eventListeners v1)) t) in
      let '(_, o1, to) := performAll calls (orb a) in
      (Some r, mkAdvanced o1 (Some v1) (isConnected a) (isVADActive a), calls, to)
  end.

(** [play()], [pause()], [stop()]: refused while the detector drives. *)
Definition play (a : Advanced) : bool * Advanced * list Core.Emission :=
  if isVADActive a then (false, a, [])
  else let '(r, o1, t) := Core.play (orb a) in
       (r, mkAdvanced o1 (vad a) (isConnected a) (isVADActive a), t).

Definition pause (a : Advanced) : bool * Advanced * list Core.Emission :=
  if isVADActive a then (false, a, [])
  else let '(r, o1, t) := Core.pause (orb a) in
       (r, mkAdvanced o1 (vad a) (isConnected a) (isVADActive a), t).

(** *** Microphone and detector control *)

Definition set_vad (v : option VAD.Detector) (a : Advanced) : Advanced :=
  mkAdvanced (orb a) v (isConnected a) (isVADActive a).
Definition set_isConnected (b : bool) (a : Advanced) : Advanced :=
  mkAdvanced (orb a) (vad a) b (isVADActive a).
Definition set_isVADActive (b : bool) (a : Advanced) : Advanced :=
  mkAdvanced (orb a) (vad a) (isConnected a) b.

(** [stop()] *)
Definition stop (a : Advanced) : bool * Advanced * list Core.Emission :=
  if isVADActive a then (false, a, [])
  else let '(r, o1, t) := Core.stop (orb a) in
       (r, mkAdvanced o1 (vad a) (isConnected a) (isVADActive a), t).

(** [connectMicrophone(vadOptions)]; [granted], [data] and [now] are what
    [connect()] and the first analysis tick of [start()] read. *)
Definition connectMicrophone (vadOptions : VAD.ConfigPatch) (granted : bool)
           (data : list Z) (now : Z) (a : Advanced)
  : bool * Advanced * list Call * list Core.Emission :=
  let a1 := match vad a with
            | Some _ => a
            | None => setupVADHandlers (set_vad (Some (VAD.createWith vadOptions)) a)
            end in
  let a2 := if VAD.hasKeys vadOptions
            then set_vad (option_map (VAD.updateConfigWith vadOptions) (vad a1)) a1
            else a1 in
  let '(connected, a3, c1, e1) := runVAD (VAD.connect granted) a2 in
  if default false connected then
    let a4 := set_isConnected true a3 in
    let '(started, a5, c2, e2) := runVAD (VAD.start data now) a4 in
    if default false started
    then (true, set_isVADActive true a5, c1 ++ c2, e1 ++ e2)
    else (false, a5, c1 ++ c2, e1 ++ e2)
  else (false, a3, c1, e1).



End Orchestrator.

(** ** voice-orb.js: the legacy [VoiceOrb] interface *)

Module Legacy.

(** The table of [changeSpeed]. *)
Definition speeds : list Q := [1 # 2; 1; 3 # 2; 2; 3]%Q.

(** [array.indexOf(x)]: the first index holding [x], or -1. *)
Fixpoint indexOf (x : Q) (l : list Q) : Z :=
  match l with
  | [] => -1
  | y :: rest =>
      if Qeq_bool y x then 0
      else let i := indexOf x rest in
           if i <? 0 then -1 else i + 1
  end.

(** The speed [changeSpeed] moves to from [currentSpeed]. *)
Definition nextSpeed (currentSpeed : Q) : Q :=
  let currentIndex := indexOf currentSpeed speeds in
  let nextIndex := (currentIndex + 1) mod Z.of_nat (length speeds) in
  nth (Z.to_nat nextIndex) speeds 0%Q.

(** [changeSpeed()], on the variable [currentSpeed] and the controller:
    the new speed is set on the controller, whose [speedChange] listener
    stores the clamped speed back. *)
Definition changeSpeed (currentSpeed : Q) : Core.M Q :=
  let next := nextSpeed currentSpeed in
  ok ← Core.setSpeed next;
  o ← Eff.get;
  mret (if ok : bool then Core.currentSpeed (Core.state o) else next).

End Legacy.

(** ** Vocabulary of the statements *)

Module Spec.
Import VAD.

(** The smoothed level after one more sample. *)
Definition smooth (cfg : Config) (sl level : Q) : Q :=
  (sl * smoothing cfg + level * (1 - smoothing cfg))%Q.

(** Every sample of the run leaves the smoothed level above threshold. *)
Fixpoint allAbove (cfg : Config) (sl : Q) (samples : list (Q * Z)) : bool :=
  match samples with
  | [] => true
  | (level, _) :: rest =>
      Qgtb (smooth cfg sl level) (threshold cfg)
      && allAbove cfg (smooth cfg sl level) rest
  end.


(** Was the smoothed level reported by this tick above threshold? *)
Definition aboveTick (cfg : Config) (t : list Emission) : bool :=
  existsb (fun m => match event m with
                    | VoiceLevel _ s _ => Qgtb s (threshold cfg)
                    | _ => false
                    end) t.




(** The two input levels of the scenarios. *)
Definition loud : Q := 1 # 2.
Definition quiet : Q := 0.

(** The configuration of the two scenarios. *)
Definition scenarioConfig : Config :=
  {| threshold := 1 # 10;
     minDuration := 100;
     maxSilence := 200;
     sensitivity := 1;
     smoothing := 0;
     fftSize := 256;
     sampleRate := 44100 |}.

(** The detector after voice has started (samples at 1000 and 1100) and
    one sample below threshold at 1150 has started the silence timer. *)
Definition afterDip : Detector :=
  fst (feed [(loud, 1000); (loud, 1100); (quiet, 1150)] (create scenarioConfig)).

(** A full-scale frame of byte frequency data (128 bins at 255). *)
Definition fullBand : list Z := repeat 255 128.

(** A detector with its microphone attached; the same started at 1000;
    and the same after the frame at 1100, when voice is detected. *)
Definition connected : Detector :=
  Eff.final (connect true) (create scenarioConfig).
Definition started : Detector :=
  Eff.final (start fullBand 1000) connected.
Definition speaking : Detector :=
  Eff.final (frame 1 fullBand 1100) started.

(** The wiring as the specification tables it: the controller calls that
    one detector event stands for. *)
Definition wired (e : VAD.Event) : list Orchestrator.Call :=
  match e with
  | VoiceStart => [Orchestrator.CallPlay]
  | VoiceEnd => [Orchestrator.CallPause]
  | VoiceLevel _ smoothed _ =>
      [Orchestrator.CallSetVoiceLevel (Core.clamp (1 # 10) 3 (smoothed * 3))]
  | Error => []
  end.

(** A player element, and a controller initialised on it. *)
Definition element : Core.Player :=
  Core.mkPlayer Core.Stopped false 1 1 "orb.json".
Definition readyOrb : Core.Orb :=
  Eff.final (Core.init (Core.ById "orb" (Some element)) None)
            (Core.create Core.defaultConfig).

End Spec.

(** ** Vocabulary of the further properties *)

Module Vocab.
Import VAD.


(** How many ticks of a run fired [voiceStart] (or [voiceEnd]). *)
Definition starts (ticks : list (list Emission)) : Z :=
  Z.of_nat (length (List.filter firesStart ticks)).
Definition ends (ticks : list (list Emission)) : Z :=
  Z.of_nat (length (List.filter firesEnd ticks)).


(** The events a tick triggers after its [voiceLevel], by the verdict
    before and after it. *)
Definition transition (before after : bool) : list Event :=
  if negb before && after then [VoiceStart]
  else if before && negb after then [VoiceEnd]
  else [].

(** The level [analyze] computes from a frame of byte frequency data. *)
Definition normalizedLevel (cfg : Config) (data : list Z) : Q :=
  (inject_Z (fold_left Z.add data 0%Z) / inject_Z (Z.of_nat (length data)) / 255
   * sensitivity cfg)%Q.

(** The analysis loop is single and runs only on an active detector; a
    detected voice belongs to an active detector, an active detector to a
    connected one. *)
Definition lifecycleOk (d : Detector) : Prop :=
  (scheduled d = [] \/
   (isActive (state d) = true /\
    exists id, scheduled d = [id] /\ animationFrame d = Some id)) /\
  (isVoiceDetected (state d) = true -> isActive (state d) = true) /\
  (isActive (state d) = true -> isConnected (state d) = true).

(** The player carries the speed and the loop mode of the state. *)
Definition mirrored (o : Core.Orb) : Prop :=
  Core.isReady o = true /\
  exists p, Core.player o = Some p /\
            Core.speed p = Core.currentSpeed (Core.state o) /\
            Core.loop p = Core.isLooping (Core.state o).

(** Whether the controller plays after a list of calls. *)
Definition playingAfter (calls : list Orchestrator.Call) (playing : bool) : bool :=
  fold_left (fun b c => match c with
                        | Orchestrator.CallPlay => true
                        | Orchestrator.CallPause => false
                        | Orchestrator.CallSetVoiceLevel _ => b
                        end) calls playing.

(** The orchestrator after the detector has processed a run of samples
    inside it. *)
Fixpoint through (samples : list (Q * Z)) (a : Orchestrator.Advanced)
  : Orchestrator.Advanced :=
  match samples with
  | [] => a
  | (level, now) :: rest =>
      through rest
        (snd (fst (fst (Orchestrator.runVAD (processVoiceActivity level now) a))))
  end.

End Vocab.

(** * Properties *)

Local Arguments Qplus : simpl never.
Local Arguments Qmult : simpl never.
Local Arguments Qminus : simpl never.
Local Arguments Qopp : simpl never.
Local Arguments Qdiv : simpl never.
Local Arguments Qle_bool : simpl never.
Local Arguments Qmax : simpl never.
Local Arguments Qmin : simpl never.

(** ** Unfolding the monad *)

Ltac eff_unfold :=
  cbv [mbind mret Eff.eff_bind Eff.eff_ret Eff.bind Eff.ret Eff.get
       Eff.modify Eff.emit Eff.when Eff.result Eff.final Eff.trace] in *.

Ltac split_ifs :=
  repeat match goal with
         | H : ?c = _ |- context [if ?c then _ else _] => rewrite H; cbn in *
         | |- context [if ?c then _ else _] => destruct c eqn:?; cbn in *
         | |- context [match ?c with Some _ => _ | None => _ end] =>
             destruct c eqn:?; cbn in *
         end.

(** ** The detector, one sample at a time *)

Section VADSteps.
Import VAD Spec.

Ltac pva_cases d :=
  let cfg := fresh "cfg" in
  let st := fresh "st" in
  let vd := fresh "vd" in
  destruct d as [cfg st ? ? ? ?]; destruct st as [? vd ? ? ? ? ? ?];
  unfold processVoiceActivity, update, trigger, with_state, smooth in *;
  eff_unfold; cbn in *; subst; try destruct vd; cbn in *; try discriminate;
  split_ifs; try congruence.

Lemma feed_cons level now rest d :
  feed ((level, now) :: rest) d =
  let '(_, d1, t) := processVoiceActivity level now d in
  let '(d2, ts) := feed rest d1 in (d2, t :: ts).
Proof. reflexivity. Qed.

(** What a sample never touches. *)
Lemma pva_frame level now d :
  let d1 := Eff.final (processVoiceActivity level now) d in
  config d1 = config d /\ eventListeners d1 = eventListeners d /\
  scheduled d1 = scheduled d /\ animationFrame d1 = animationFrame d /\
  isActive (state d1) = isActive (state d) /\
  isConnected (state d1) = isConnected (state d) /\
  nextFrame d1 = nextFrame d /\
  smoothedLevel (state d1) = smooth (config d) (smoothedLevel (state d)) level.
Proof. pva_cases d; repeat split; reflexivity. Qed.





(** The first sample after a reset fires nothing and starts no silence
    timer. *)
Lemma pva_first_tick level now d :
  isVoiceDetected (state d) = false ->
  voiceStartTime (state d) = 0 ->
  silenceStartTime (state d) = 0 ->
  let d1 := Eff.final (processVoiceActivity level now) d in
  isVoiceDetected (state d1) = false /\
  silenceStartTime (state d1) = 0 /\
  firesStart (Eff.trace (processVoiceActivity level now) d) = false /\
  firesEnd (Eff.trace (processVoiceActivity level now) d) = false.
Proof. intros Hd Hv Hs. pva_cases d; repeat split; try reflexivity; try lia. Qed.


(** The silence timer changes only at a [voiceStart] or a [voiceEnd],
    and both leave it cleared. *)
Lemma pva_silence_timer level now d :
  silenceStartTime (state d) <> 0 ->
  let '(_, d1, t) := processVoiceActivity level now d in
  (firesStart t = false -> firesEnd t = false ->
   silenceStartTime (state d1) = silenceStartTime (state d) /\
   isVoiceDetected (state d1) = isVoiceDetected (state d)) /\
  (firesStart t = true \/ firesEnd t = true ->
   silenceStartTime (state d1) = 0).
Proof.
  intros Hs. pva_cases d; split; intros; repeat split;
    try reflexivity; try lia; try discriminate; intuition discriminate.
Qed.


End VADSteps.

(** ** The detector over a run of samples *)

Section VADRuns.
Import VAD Spec.






(** With no smoothing, inputs above threshold keep the smoothed level
    above threshold. *)
Lemma allAbove_no_smoothing cfg sl samples :
  (smoothing cfg == 0)%Q ->
  Forall (fun s => (threshold cfg < fst s)%Q) samples ->
  allAbove cfg sl samples = true.
Proof.
  intros Hs H. revert sl. induction H as [|[level now] rest Hx _ IH]; intros sl; [reflexivity|].
  cbn [allAbove]. rewrite IH, andb_true_r. unfold Qgtb, smooth.
  apply negb_true_iff. apply not_true_is_false. rewrite Qle_bool_iff.
  cbn in Hx. rewrite Hs. lra.
Qed.

(** C1: the code, evaluated on a dip during speech: voice starts at 1100,
    one sample at 1150 is below threshold, every later sample is above
    it, and [voiceEnd] still fires at 1350, on a sample above threshold,
    after a below-threshold interval made of the single sample at 1150. *)
Theorem C1_voiceEnd_fires_during_voice :
  let ticks :=
    snd (feed [(loud, 1000); (loud, 1100); (quiet, 1150);
               (loud, 1200); (loud, 1300); (loud, 1350)]
              (create scenarioConfig)) in
  map (aboveTick scenarioConfig) ticks = [true; true; false; true; true; true] /\
  map firesStart ticks = [false; true; false; false; false; false] /\
  map firesEnd ticks = [false; false; false; false; false; true].
Proof. vm_compute. repeat split. Qed.

(** C2: during a voice period with the silence timer running, a sample
    above threshold fires no [voiceStart], fires [voiceEnd] exactly when
    the countdown has run out, and otherwise leaves the timer and the
    voice period as they were; and over any run of samples the silence
    timer changes only if some tick fired [voiceStart] or [voiceEnd]. *)
Theorem C2_silence_timer_survives_voice :
  (forall d level now,
     isVoiceDetected (state d) = true ->
     silenceStartTime (state d) <> 0 ->
     Qgtb (smooth (config d) (smoothedLevel (state d)) level)
          (threshold (config d)) = true ->
     let '(_, d1, t) := processVoiceActivity level now d in
     firesStart t = false /\
     firesEnd t = (silenceStartTime (state d) >? 0)
                  && (now - silenceStartTime (state d) >=? maxSilence (config d)) /\
     (firesEnd t = false ->
      silenceStartTime (state d1) = silenceStartTime (state d) /\
      isVoiceDetected (state d1) = true)) /\
  (forall samples d,
     silenceStartTime (state d) <> 0 ->
     let '(d1, ticks) := feed samples d in
     silenceStartTime (state d1) <> silenceStartTime (state d) ->
     exists t, In t ticks /\ (firesStart t = true \/ firesEnd t = true)).
Proof.
  split.
  - intros d level now Hd Hs Ha.
    destruct d as [cfg st ? ? ? ?]; destruct st.
    unfold processVoiceActivity, update, trigger, with_state, smooth in *.
    eff_unfold. cbn in *. subst. rewrite Ha. cbn.
    destruct (silenceStartTime0 >? 0); cbn;
      [destruct (now - silenceStartTime0 >=? maxSilence cfg); cbn|];
      repeat split; try discriminate; reflexivity.
  - induction samples as [|[level now] rest IH]; intros d Hs.
    + cbn. intros H. congruence.
    + rewrite feed_cons. pose proof (pva_silence_timer level now d Hs) as P.
      destruct (processVoiceActivity level now d) as [[u d1] t].
      destruct P as [P _]. specialize (IH d1).
      destruct (feed rest d1) as [d2 ts]. intros Hne.
      destruct (firesStart t) eqn:Es; [exists t; split; [left; reflexivity | auto]|].
      destruct (firesEnd t) eqn:Ee; [exists t; split; [left; reflexivity | auto]|].
      destruct (P eq_refl eq_refl) as [P1 _]. rewrite P1 in IH.
      destruct (IH Hs Hne) as (t' & Hin & Hf).
      exists t'. split; [right; exact Hin | exact Hf].
Qed.

Lemma C2_witness :
  let '(_, d1, t) := processVoiceActivity loud 1200 afterDip in
  firesStart t = false /\ firesEnd t = false /\
  silenceStartTime (state d1) = 1150.
Proof.
  assert (Hd : isVoiceDetected (state afterDip) = true) by (vm_compute; reflexivity).
  assert (Hs : silenceStartTime (state afterDip) <> 0) by (vm_compute; discriminate).
  assert (Ha : Qgtb (smooth (config afterDip) (smoothedLevel (state afterDip)) loud)
                    (threshold (config afterDip)) = true) by (vm_compute; reflexivity).
  pose proof (proj1 C2_silence_timer_survives_voice afterDip loud 1200 Hd Hs Ha) as P.
  destruct (processVoiceActivity loud 1200 afterDip) as [[u d1] t].
  destruct P as (Ps & Pe & Pk).
  assert (He : firesEnd t = false) by (rewrite Pe; vm_compute; reflexivity).
  destruct (Pk He) as [Pk1 _].
  split; [exact Ps | split; [exact He | rewrite Pk1; vm_compute; reflexivity]].
Defined.









End VADRuns.

(** ** The smoothed level *)

Section Smoothing.
Import VAD Spec.











End Smoothing.

(** ** [start()] and [stop()] *)

Section Lifecycle.
Import VAD Spec.

(** C8: [start()] returns failure and changes nothing without an audio
    source; while already active it returns success and changes nothing:
    no field of the state, no new frame request; from inactive it resets
    the hysteresis state, becomes active and runs the first analysis tick
    on the reset state, which requests the one next frame and leaves no
    voice detected and no silence timer. *)
Theorem C8_start_guards_and_reset :
  (forall d data now,
     isConnected (state d) = false ->
     start data now d = (false, d, [])) /\
  (forall d data now,
     isConnected (state d) = true ->
     isActive (state d) = true ->
     start data now d = (true, d, [])) /\
  (forall d data now,
     isConnected (state d) = true ->
     isActive (state d) = false ->
     let fresh :=
       with_state (fun s => mkState true false 0%Q 0%Q 0 0 0 (isConnected s)) d in
     start data now d =
     (true, Eff.final (analyze data now) fresh, Eff.trace (analyze data now) fresh) /\
     scheduled (Eff.final (start data now) d) = scheduled d ++ [nextFrame d] /\
     isActive (state (Eff.final (start data now) d)) = true /\
     isVoiceDetected (state (Eff.final (start data now) d)) = false /\
     silenceStartTime (state (Eff.final (start data now) d)) = 0).
Proof.
  split; [|split].
  - intros d data now Hc. destruct d as [cfg st ? ? ? ?]. cbn in Hc.
    unfold start. eff_unfold. cbn. rewrite Hc. reflexivity.
  - intros d data now Hc Ha. destruct d as [cfg st ? ? ? ?]. cbn in Hc, Ha.
    unfold start. eff_unfold. cbn. rewrite Hc, Ha. reflexivity.
  - intros d data now Hc Ha fresh. subst fresh.
    destruct d as [cfg st ? ? ? ?]. destruct st. cbn in Hc, Ha. subst.
    unfold start, startAnalysis, analyze, resetVADState, update, with_state,
      requestAnimationFrame, set_animationFrame.
    eff_unfold. cbn.
    match goal with
    | |- context [processVoiceActivity ?l now ?d0] =>
        pose proof (pva_first_tick l now d0 eq_refl eq_refl eq_refl) as A;
        pose proof (pva_frame l now d0) as F
    end.
    unfold Eff.final in A, F.
    destruct (processVoiceActivity _ now _) as [[u d1] t].
    cbn in A, F. destruct F as (_ & _ & F3 & _ & F5 & _ & F7 & _).
    destruct A as (A1 & A2 & _).
    cbn. rewrite F3, F7, !app_nil_r. repeat split; assumption.
Qed.

Lemma C8_witness :
  start fullBand 1000 (create scenarioConfig) = (false, create scenarioConfig, []) /\
  start fullBand 1200 started = (true, started, []) /\
  scheduled started = [1%positive] /\
  isActive (state started) = true.
Proof.
  destruct C8_start_guards_and_reset as (P1 & P2 & P3).
  split; [|split; [|split]].
  - apply P1. reflexivity.
  - apply P2; vm_compute; reflexivity.
  - apply (P3 connected fullBand 1000); vm_compute; reflexivity.
  - apply (P3 connected fullBand 1000); vm_compute; reflexivity.
Defined.

(** C5, as stated, fails on the order: [stop()] clears [isActive] first
    and triggers [voiceEnd] after it, so a listener of that [voiceEnd]
    already reads [isActive = false]. *)
Lemma C5_counterexample :
  isActive (state speaking) = true /\
  isVoiceDetected (state speaking) = true /\
  map (fun m => (event m, isActive (seen m))) (Eff.trace stop speaking) =
  [(VoiceEnd, false)].
Proof. vm_compute. repeat split. Qed.

(** C5, amended: [stop()] on an active detector with voice detected
    returns success and triggers exactly one event, [voiceEnd], after
    both [isActive] and [isVoiceDetected] have been cleared: the listener
    of that [voiceEnd] and the caller afterwards read [isActive = false]
    and [isVoiceDetected = false], never [isActive = false] with
    [isVoiceDetected = true].  On an active detector without voice it
    triggers nothing.  On an inactive detector it returns success,
    changes nothing and triggers nothing, so a second [stop()] is a
    no-op. *)
Theorem C5_stop_emits_one_voiceEnd :
  (forall d,
     isActive (state d) = true ->
     isVoiceDetected (state d) = true ->
     let '(r, d1, t) := stop d in
     r = true /\
     map event t = [VoiceEnd] /\
     Forall (fun m => isActive (seen m) = false /\
                      isVoiceDetected (seen m) = false) t /\
     isActive (state d1) = false /\
     isVoiceDetected (state d1) = false) /\
  (forall d,
     isActive (state d) = true ->
     isVoiceDetected (state d) = false ->
     let '(r, d1, t) := stop d in
     r = true /\ t = [] /\
     isActive (state d1) = false /\ isVoiceDetected (state d1) = false) /\
  (forall d, isActive (state d) = false -> stop d = (true, d, [])) /\
  (forall d, stop (Eff.final stop d) = (true, Eff.final stop d, [])).
Proof.
  assert (Off : forall d, isActive (state d) = false -> stop d = (true, d, [])).
  { intros d Ha. destruct d as [cfg st ? ? ? ?]. cbn in Ha.
    unfold stop. eff_unfold. cbn. rewrite Ha. reflexivity. }
  assert (Down : forall d, isActive (state (Eff.final stop d)) = false).
  { intros d. destruct (isActive (state d)) eqn:Ha.
    - destruct d as [cfg st af ? ? ?]. destruct st as [? vd ? ? ? ? ? ?].
      cbn in Ha. subst.
      unfold stop, update, trigger, with_state, cancelAnimationFrame,
        set_animationFrame.
      eff_unfold. destruct af, vd; reflexivity.
    - unfold Eff.final. rewrite (Off d Ha). exact Ha. }
  split; [|split; [|split]].
  - intros d Ha Hd. destruct d as [cfg st af ? ? ?]. destruct st.
    cbn in Ha, Hd. subst.
    unfold stop, update, trigger, with_state, cancelAnimationFrame,
      set_animationFrame.
    eff_unfold. destruct af; cbn; repeat split; repeat constructor.
  - intros d Ha Hd. destruct d as [cfg st af ? ? ?]. destruct st.
    cbn in Ha, Hd. subst.
    unfold stop, update, trigger, with_state, cancelAnimationFrame,
      set_animationFrame.
    eff_unfold. destruct af; cbn; repeat split.
  - exact Off.
  - intros d. apply Off. apply Down.
Qed.

Lemma C5_witness :
  let '(r, d1, t) := stop speaking in
  r = true /\ map event t = [VoiceEnd] /\
  isActive (state d1) = false /\ isVoiceDetected (state d1) = false.
Proof.
  pose proof (proj1 C5_stop_emits_one_voiceEnd speaking) as P.
  destruct (stop speaking) as [[r d1] t].
  destruct P as (P1 & P2 & _ & P4 & P5); [vm_compute; reflexivity .. |].
  repeat split; assumption.
Defined.

End Lifecycle.

(** ** The animation controller *)

Section Controller.
Import Core.

Lemma clamp_range lo hi x :
  (lo <= hi)%Q -> (lo <= clamp lo hi x)%Q /\ (clamp lo hi x <= hi)%Q.
Proof.
  intros H. unfold clamp. split; [apply Q.le_max_l|].
  apply Q.max_lub; [exact H | apply Q.le_min_l].
Qed.

Lemma clamp_inside lo hi x :
  (lo <= x)%Q -> (x <= hi)%Q -> (clamp lo hi x == x)%Q.
Proof.
  intros H1 H2. unfold clamp. rewrite (Q.min_r hi x H2). apply Q.max_r. exact H1.
Qed.

Lemma clamp_below lo hi x :
  (lo <= hi)%Q -> (x <= lo)%Q -> (clamp lo hi x == lo)%Q.
Proof.
  intros H1 H2. unfold clamp. apply Q.max_l.
  eapply Qle_trans; [apply Q.le_min_r | exact H2].
Qed.

Lemma clamp_above lo hi x :
  (lo <= hi)%Q -> (hi <= x)%Q -> (clamp lo hi x == hi)%Q.
Proof.
  intros H1 H2. unfold clamp. rewrite (Q.min_l hi x H2). apply Q.max_r. exact H1.
Qed.

(** C9: [setVoiceLevel(level)] on a controller that is not ready returns
    failure, changes nothing and triggers nothing.  On a ready one it
    returns success; with [cl] the level clamped to
    [[minVoiceLevel, maxVoiceLevel]], it first does what [setSpeed(cl)]
    does, then sets the opacity of the player and of the state to
    [cl / 2] clamped to [[minOpacity, maxOpacity]], and triggers
    [voiceChange] with [cl] and that opacity, at which point the player
    already carries the new speed and the new opacity.  Clamping to a
    range that is not empty gives the bound that the value passes, or the
    value itself inside the range, and with the default ranges clamping
    [cl / 2] or [level / 2] gives the same opacity. *)
Theorem C9_setVoiceLevel_speed_and_opacity :
  (forall o level, isReady o = false -> setVoiceLevel level o = (false, o, [])) /\
  (forall o level,
     isReady o = true ->
     let cl := clamp (minVoiceLevel (config o)) (maxVoiceLevel (config o)) level in
     let sp := clamp (minSpeed (config o)) (maxSpeed (config o)) cl in
     let op := clamp (minOpacity (config o)) (maxOpacity (config o)) (cl / 2) in
     let '(r, o1, t) := setVoiceLevel level o in
     r = true /\
     option_map speed (player o1) = Some sp /\
     option_map style_opacity (player o1) = Some op /\
     currentSpeed (state o1) = sp /\
     voiceLevel (state o1) = cl /\
     opacity (state o1) = op /\
     t = Eff.trace (setSpeed cl) o ++
         [ {| event := VoiceChange cl op; seen := state o1; seenPlayer := player o1 |} ] /\
     map event t = [SpeedChange sp; VoiceChange cl op]) /\
  (forall lo hi x,
     (lo <= hi)%Q ->
     (lo <= clamp lo hi x)%Q /\ (clamp lo hi x <= hi)%Q /\
     ((x <= lo)%Q -> (clamp lo hi x == lo)%Q) /\
     ((hi <= x)%Q -> (clamp lo hi x == hi)%Q) /\
     ((lo <= x)%Q -> (x <= hi)%Q -> (clamp lo hi x == x)%Q)) /\
  (forall level,
     let cl := clamp (minVoiceLevel defaultConfig) (maxVoiceLevel defaultConfig) level in
     (clamp (minOpacity defaultConfig) (maxOpacity defaultConfig) (cl / 2) ==
      clamp (minOpacity defaultConfig) (maxOpacity defaultConfig) (level / 2))%Q).
Proof.
  split; [|split; [|split]].
  - intros o level Hr. unfold setVoiceLevel. eff_unfold. rewrite Hr. reflexivity.
  - intros o level Hr. destruct o as [cfg st pl pid ls].
    unfold isReady in Hr. cbn in Hr. destruct st as [ini ? ? ? ? ?]. cbn in Hr.
    destruct ini; [|discriminate]. destruct pl as [p|]; [|discriminate].
    unfold setVoiceLevel, setSpeed, onPlayer, update, trigger, isReady, clamp.
    eff_unfold. cbn. repeat split.
  - intros lo hi x H. destruct (clamp_range lo hi x H) as [R1 R2].
    repeat split; [exact R1 | exact R2 | | | ].
    + apply clamp_below; exact H.
    + apply clamp_above; exact H.
    + apply clamp_inside.
  - intros level cl. subst cl.
    cbn [minVoiceLevel maxVoiceLevel minOpacity maxOpacity defaultConfig].
    assert (H : (clamp (1 # 10) 3 level == level)%Q \/
                ((level <= 1 # 10)%Q /\ (clamp (1 # 10) 3 level == 1 # 10)%Q) \/
                ((3 <= level)%Q /\ (clamp (1 # 10) 3 level == 3)%Q)).
    { destruct (Qlt_le_dec level (1 # 10)) as [L|L].
      - right; left. split; [lra | apply clamp_below; lra].
      - destruct (Qlt_le_dec 3 level) as [U|U].
        + right; right. split; [lra | apply clamp_above; lra].
        + left. apply clamp_inside; lra. }
    set (c := clamp (1 # 10) 3 level) in *. clearbody c.
    unfold Qdiv in *. change (/ 2)%Q with (1 # 2)%Q in *.
    destruct H as [H | [[L H] | [U H]]].
    + destruct (Qlt_le_dec (level * (1 # 2)) (8 # 10)) as [A|A].
      * transitivity (8 # 10)%Q; [|symmetry]; apply clamp_below; lra.
      * destruct (Qlt_le_dec 1 (level * (1 # 2))) as [B|B].
        -- transitivity 1%Q; [|symmetry]; apply clamp_above; lra.
        -- transitivity (level * (1 # 2))%Q; [|symmetry; apply clamp_inside; lra].
           transitivity (c * (1 # 2))%Q; [apply clamp_inside|]; lra.
    + transitivity (8 # 10)%Q; [|symmetry]; apply clamp_below; lra.
    + transitivity 1%Q; [|symmetry]; apply clamp_above; lra.
Qed.

Lemma C9_witness :
  setVoiceLevel 5 (create defaultConfig) = (false, create defaultConfig, []) /\
  Eff.result (setVoiceLevel 5) Spec.readyOrb = true /\
  option_map speed (player (Eff.final (setVoiceLevel 5) Spec.readyOrb)) =
  Some (clamp (1 # 10) 3 (clamp (1 # 10) 3 5)) /\
  (clamp (1 # 10) 3 5 <= 3)%Q.
Proof.
  destruct C9_setVoiceLevel_speed_and_opacity as (P1 & P2 & P3 & _).
  split; [apply P1; reflexivity|].
  assert (Hr : isReady Spec.readyOrb = true) by reflexivity.
  specialize (P2 Spec.readyOrb 5%Q Hr). unfold Eff.result, Eff.final.
  destruct (setVoiceLevel 5 Spec.readyOrb) as [[r o1] t].
  destruct P2 as (R1 & R2 & _).
  split; [exact R1 | split; [exact R2|]].
  apply (P3 (1 # 10)%Q 3%Q 5%Q). vm_compute. discriminate.
Defined.

End Controller.

(** ** The orchestrator *)

Section Wiring.
Import Orchestrator.


End Wiring.

(** * Further properties *)

(** ** One sample, any state *)

Section Ticks.
Import VAD Spec Vocab.

Ltac pva_split d :=
  let cfg := fresh "cfg" in
  let st := fresh "st" in
  let vd := fresh "vd" in
  destruct d as [cfg st ? ? ? ?]; destruct st as [? vd ? ? ? ? ? ?];
  unfold processVoiceActivity, update, trigger, with_state, smooth in *;
  eff_unfold; cbn in *; subst; try destruct vd; cbn in *; try discriminate;
  split_ifs; try congruence.

Lemma pva_events level now d :
  let '(_, d1, t) := processVoiceActivity level now d in
  map event t =
  VoiceLevel level (smoothedLevel (state d1)) now
  :: transition (isVoiceDetected (state d)) (isVoiceDetected (state d1)).
Proof. pva_split d; reflexivity. Qed.

(** X1: a tick triggers one [voiceLevel], carrying the input, the new
    smoothed level and the timestamp, and after it [voiceStart] exactly
    when the verdict went from false to true, [voiceEnd] exactly when it
    went from true to false, and nothing otherwise: never both. *)
Theorem tick_events_follow_the_verdict level now d :
  let '(_, d1, t) := processVoiceActivity level now d in
  map event t =
  VoiceLevel level (smoothedLevel (state d1)) now
  :: transition (isVoiceDetected (state d)) (isVoiceDetected (state d1)).
Proof. apply pva_events. Qed.

(** X2: [voiceStart] fires only on a sample above threshold, outside a
    voice period, with the start timer already running for at least
    [minDuration]; [voiceEnd] fires only during a voice period, either
    with the silence timer already running for at least [maxSilence], or,
    when [maxSilence <= 0], on the sample at or below threshold that would
    have started it.  So the sample that starts a timer never fires the
    transition the timer guards, unless [maxSilence <= 0]. *)
Theorem transitions_need_a_running_timer level now d :
  let '(_, d1, t) := processVoiceActivity level now d in
  let above := Qgtb (smooth (config d) (smoothedLevel (state d)) level)
                    (threshold (config d)) in
  (firesStart t = true ->
   above = true /\ isVoiceDetected (state d) = false /\
   voiceStartTime (state d) <> 0 /\
   minDuration (config d) <= now - voiceStartTime (state d)) /\
  (firesEnd t = true ->
   isVoiceDetected (state d) = true /\
   ((0 < silenceStartTime (state d) /\
     maxSilence (config d) <= now - silenceStartTime (state d)) \/
    (silenceStartTime (state d) = 0 /\ above = false /\
     0 < now /\ maxSilence (config d) <= 0))).
Proof.
  pva_split d; split; intros; try discriminate; repeat split; try lia;
    try reflexivity; try (left; lia); try (right; repeat split; lia).
Qed.

End Ticks.

(** ** Runs of samples *)

Section Runs.
Import VAD Spec Vocab.

Lemma transitions_witness :
  voiceStartTime (state (fst (feed [(loud, 1000)] (create scenarioConfig)))) <> 0.
Proof.
  pose proof (transitions_need_a_running_timer loud 1100
                (fst (feed [(loud, 1000)] (create scenarioConfig)))) as P.
  destruct (processVoiceActivity loud 1100
              (fst (feed [(loud, 1000)] (create scenarioConfig)))) as [[u d1] t] eqn:E.
  destruct P as [P _].
  assert (F : firesStart t = true).
  { replace t with (snd (processVoiceActivity loud 1100
                           (fst (feed [(loud, 1000)] (create scenarioConfig)))))
      by (rewrite E; reflexivity).
    vm_compute. reflexivity. }
  destruct (P F) as (_ & _ & P3 & _). exact P3.
Defined.




Lemma fires_by_events t :
  firesStart t =
  existsb (fun e => match e with VoiceStart => true | _ => false end) (map event t) /\
  firesEnd t =
  existsb (fun e => match e with VoiceEnd => true | _ => false end) (map event t).
Proof.
  unfold firesStart, firesEnd.
  induction t as [|[e st] t [IH1 IH2]]; [split; reflexivity|].
  cbn [existsb map event]. rewrite IH1, IH2. destruct e; split; reflexivity.
Qed.

(** X4: over any run, [voiceStart] and [voiceEnd] alternate: the ticks
    that fired [voiceStart] outnumber those that fired [voiceEnd] by one
    if the run took the verdict from false to true, by minus one if from
    true to false, and by nothing if the verdict ends as it began. *)
Theorem starts_and_ends_balance samples : forall d,
  let '(d1, ticks) := feed samples d in
  starts ticks + Z.b2z (isVoiceDetected (state d)) =
  ends ticks + Z.b2z (isVoiceDetected (state d1)).
Proof.
  unfold starts, ends.
  induction samples as [|[level now] rest IH]; intros d; [reflexivity|].
  rewrite feed_cons.
  pose proof (pva_events level now d) as T.
  destruct (processVoiceActivity level now d) as [[u d1] t].
  specialize (IH d1). destruct (feed rest d1) as [d2 ts].
  cbv beta iota. cbn [List.filter].
  assert (S : firesStart t = negb (isVoiceDetected (state d)) && isVoiceDetected (state d1) /\
              firesEnd t = isVoiceDetected (state d) && negb (isVoiceDetected (state d1))).
  { destruct (fires_by_events t) as [-> ->]. rewrite T. unfold transition.
    destruct (isVoiceDetected (state d)), (isVoiceDetected (state d1)); split; reflexivity. }
  destruct S as [-> ->].
  destruct (isVoiceDetected (state d)), (isVoiceDetected (state d1));
    cbn [negb andb length Z.b2z] in *; lia.
Qed.


End Runs.

(** ** The analysis loop and the lifecycle *)

Section Sessions.
Import VAD Spec Vocab.

Lemma analyze_inactive data now d :
  isActive (state d) = false -> analyze data now d = (tt, d, []).
Proof.
  intros H. unfold analyze. eff_unfold. rewrite H. reflexivity.
Qed.

Lemma analyze_active data now d :
  isActive (state d) = true ->
  let d1 := Eff.final (processVoiceActivity (normalizedLevel (config d) data) now) d in
  analyze data now d =
  (tt,
   mkDetector (config d1) (state d1) (Some (nextFrame d)) (eventListeners d1)
              (scheduled d ++ [nextFrame d]) (Pos.succ (nextFrame d)),
   Eff.trace (processVoiceActivity (normalizedLevel (config d) data) now) d).
Proof.
  intros H d1. subst d1.
  pose proof (pva_frame (normalizedLevel (config d) data) now d) as F.
  unfold analyze, requestAnimationFrame, set_animationFrame, normalizedLevel in *.
  eff_unfold. rewrite H. cbn [negb].
  destruct (processVoiceActivity _ now d) as [[u d1] t]. cbn [fst snd] in *.
  destruct F as (_ & _ & F3 & _ & _ & _ & F7 & _).
  cbn. rewrite F3, F7, !app_nil_r. reflexivity.
Qed.

Lemma sum_bytes_bounds data :
  List.Forall (fun b => 0 <= b <= 255) data ->
  forall acc, acc <= fold_left Z.add data acc <= acc + 255 * Z.of_nat (length data).
Proof.
  induction 1 as [|b rest Hb _ IH]; intros acc; cbn [fold_left length]; [lia|].
  specialize (IH (acc + b)). lia.
Qed.

(** X6: on an active detector, a frame of bytes (each in 0..255, at least
    one) with [sensitivity >= 0] is reported as one [voiceLevel] whose raw
    level lies in [[0, sensitivity]], and one next frame is requested; on
    an inactive detector [analyze] does nothing. *)
Theorem analyze_reports_a_normalized_level :
  (forall d data now,
     isActive (state d) = true ->
     data <> [] ->
     List.Forall (fun b => 0 <= b <= 255) data ->
     (0 <= sensitivity (config d))%Q ->
     let '(_, d1, t) := analyze data now d in
     exists raw smoothed rest,
       map event t = VoiceLevel raw smoothed now :: rest /\
       (0 <= raw)%Q /\ (raw <= sensitivity (config d))%Q /\
       scheduled d1 = scheduled d ++ [nextFrame d] /\
       animationFrame d1 = Some (nextFrame d)) /\
  (forall d data now,
     isActive (state d) = false -> analyze data now d = (tt, d, [])).
Proof.
  split; [|intros; apply analyze_inactive; assumption].
  intros d data now Ha Hne Hb Hs. rewrite (analyze_active data now d Ha).
  pose proof (pva_events (normalizedLevel (config d) data) now d) as T.
  unfold Eff.trace, Eff.final.
  destruct (processVoiceActivity _ now d) as [[u d1] t]. cbn [fst snd].
  eexists _, _, _. split; [exact T|]. split; [|split; [|split; reflexivity]].
  - unfold normalizedLevel.
    pose proof (sum_bytes_bounds data Hb 0) as [B1 _].
    assert (N : (0 < inject_Z (Z.of_nat (length data)))%Q).
    { change 0%Q with (inject_Z 0). rewrite <- Zlt_Qlt.
      destruct data; [congruence | cbn [length]; lia]. }
    assert (S : (0 <= inject_Z (fold_left Z.add data 0%Z))%Q).
    { change 0%Q with (inject_Z 0). rewrite <- Zle_Qle. exact B1. }
    apply Qmult_le_0_compat; [|exact Hs].
    apply Qle_shift_div_l; [reflexivity|]. rewrite Qmult_0_l.
    apply Qle_shift_div_l; [exact N|]. rewrite Qmult_0_l. exact S.
  - unfold normalizedLevel.
    pose proof (sum_bytes_bounds data Hb 0) as [_ B2].
    assert (N : (0 < inject_Z (Z.of_nat (length data)))%Q).
    { change 0%Q with (inject_Z 0). rewrite <- Zlt_Qlt.
      destruct data; [congruence | cbn [length]; lia]. }
    assert (U : (inject_Z (fold_left Z.add data 0%Z) / inject_Z (Z.of_nat (length data)) / 255 <= 1)%Q).
    { apply Qle_shift_div_r; [reflexivity|]. rewrite Qmult_1_l.
      apply Qle_shift_div_r; [exact N|].
      change 255%Q with (inject_Z 255). rewrite <- inject_Z_mult, <- Zle_Qle. lia. }
    set (x := (inject_Z (fold_left Z.add data 0%Z) / inject_Z (Z.of_nat (length data)) / 255)%Q) in *.
    clearbody x.
    eapply Qle_trans; [apply Qmult_le_compat_r; [exact U | exact Hs]|].
    rewrite Qmult_1_l. apply Qle_refl.
Qed.

Lemma analyze_witness :
  exists raw smoothed rest,
    map event (Eff.trace (analyze fullBand 1100) started) =
    VoiceLevel raw smoothed 1100 :: rest /\ (0 <= raw)%Q /\ (raw <= 1)%Q.
Proof.
  pose proof (proj1 analyze_reports_a_normalized_level started fullBand 1100) as P.
  unfold Eff.trace. destruct (analyze fullBand 1100 started) as [[u d1] t].
  destruct P as (raw & smoothed & rest & E & R0 & R1 & _).
  - vm_compute. reflexivity.
  - discriminate.
  - unfold fullBand. apply List.Forall_forall. intros b Hb.
    apply repeat_spec in Hb. subst b. lia.
  - vm_compute. discriminate.
  - exists raw, smoothed, rest. repeat split; assumption.
Defined.

(** What [stop()] leaves of an active detector. *)
Lemma stop_active d :
  isActive (state d) = true ->
  let '(r, d1, t) := stop d in
  r = true /\
  isActive (state d1) = false /\ isVoiceDetected (state d1) = false /\
  isConnected (state d1) = isConnected (state d) /\
  animationFrame d1 = None /\
  scheduled d1 = match animationFrame d with
                 | Some id => filter (fun i => negb (Pos.eqb i id)) (scheduled d)
                 | None => scheduled d
                 end /\
  map event t = if isVoiceDetected (state d) then [VoiceEnd] else [].
Proof.
  intros Ha. destruct d as [cfg st af ? ? ?]. destruct st as [? vd ? ? ? ? ? ?].
  cbn in Ha. subst.
  unfold stop, update, trigger, with_state, cancelAnimationFrame, set_animationFrame.
  eff_unfold. destruct af, vd; cbn; repeat split.
Qed.

Lemma stop_inactive d :
  isActive (state d) = false -> stop d = (true, d, []).
Proof.
  intros Ha. destruct d as [cfg st ? ? ? ?]. cbn in Ha.
  unfold stop. eff_unfold. cbn. rewrite Ha. reflexivity.
Qed.

(** What [start()] does on a connected, inactive detector. *)
Lemma start_fresh data now d :
  isConnected (state d) = true ->
  isActive (state d) = false ->
  start data now d =
  (true,
   Eff.final (analyze data now)
     (with_state (fun s => mkState true false 0%Q 0%Q 0 0 0 (isConnected s)) d),
   Eff.trace (analyze data now)
     (with_state (fun s => mkState true false 0%Q 0%Q 0 0 0 (isConnected s)) d)).
Proof.
  intros Hc Ha. destruct d as [cfg st ? ? ? ?]. destruct st. cbn in Hc, Ha. subst.
  unfold start, startAnalysis, resetVADState, update, with_state.
  eff_unfold. cbn [negb state isConnected isActive].
  unfold Eff.final, Eff.trace. cbn [state config animationFrame eventListeners scheduled nextFrame
    set_isVoiceDetected set_lastVoiceTime set_voiceStartTime set_silenceStartTime
    set_currentLevel set_smoothedLevel set_isActive isActive isVoiceDetected currentLevel
    smoothedLevel lastVoiceTime voiceStartTime silenceStartTime isConnected].
  destruct (analyze data now _) as [[u d1] t]. cbn. rewrite !app_nil_r. reflexivity.
Qed.

Lemma filter_out_single (id : positive) :
  filter (fun i => negb (Pos.eqb i id)) [id] = [].
Proof.
  cbn. rewrite Pos.eqb_refl. reflexivity.
Qed.

Lemma perform_keeps_lifecycle op d :
  lifecycleOk d -> lifecycleOk (Eff.final (perform op) d).
Proof.
  unfold lifecycleOk. intros (L1 & L2 & L3).
  destruct op as [granted | data now | | | id data now]; unfold perform, Eff.final.
  - (* connect *)
    destruct d as [cfg st ? ? ? ?]. destruct st.
    unfold connect, update, trigger, with_state. eff_unfold.
    destruct granted; cbn in *; repeat split; auto.
  - (* start *)
    eff_unfold. case_eq (isConnected (state d)); intros Hc.
    + case_eq (isActive (state d)); intros Ha.
      * unfold start. eff_unfold. rewrite Hc, Ha. cbn. repeat split; auto.
      * rewrite (start_fresh data now d Hc Ha). cbn [fst snd].
        assert (S0 : scheduled d = []).
        { destruct L1 as [L1 | (L1 & _)]; [exact L1 | congruence]. }
        set (d0 := with_state _ d).
        assert (A0 : isActive (state d0) = true) by reflexivity.
        assert (C0 : isConnected (state d0) = true) by exact Hc.
        assert (S1 : scheduled d0 = []) by exact S0.
        pose proof (pva_first_tick (normalizedLevel (config d0) data) now d0
                      eq_refl eq_refl eq_refl) as A.
        pose proof (pva_frame (normalizedLevel (config d0) data) now d0) as F.
        clearbody d0. unfold Eff.final. rewrite (analyze_active data now d0 A0).
        unfold Eff.final, Eff.trace in *.
        destruct (processVoiceActivity _ now d0) as [[u d1] t].
        cbn [fst snd] in *.
        destruct F as (_ & _ & _ & _ & F5 & F6 & _). destruct A as (A1 & _).
        cbn [scheduled animationFrame state]. rewrite S1. cbn [app].
        repeat split.
        -- right. split; [congruence|]. eexists. split; reflexivity.
        -- congruence.
        -- intros _. congruence.
    + unfold start. eff_unfold. rewrite Hc. cbn. repeat split; auto.
  - (* stop *)
    eff_unfold. case_eq (isActive (state d)); intros Ha.
    + pose proof (stop_active d Ha) as P. destruct (stop d) as [[r d1] t].
      destruct P as (_ & P2 & P3 & P4 & P5 & P6 & _). cbn.
      repeat split; try congruence.
      left. rewrite P6.
      destruct L1 as [L1 | (_ & id & L1 & L1')].
      * rewrite L1. destruct (animationFrame d); reflexivity.
      * rewrite L1, L1'. apply filter_out_single.
    + rewrite (stop_inactive d Ha). cbn. repeat split; auto.
  - (* disconnect *)
    unfold disconnect, update, with_state. eff_unfold.
    case_eq (isActive (state d)); intros Ha.
    + pose proof (stop_active d Ha) as P. destruct (stop d) as [[r d1] t].
      destruct P as (_ & P2 & P3 & P4 & P5 & P6 & _). cbn.
      repeat split; try congruence.
      left. rewrite P6.
      destruct L1 as [L1 | (_ & id & L1 & L1')].
      * rewrite L1. destruct (animationFrame d); reflexivity.
      * rewrite L1, L1'. apply filter_out_single.
    + rewrite (stop_inactive d Ha). cbn. repeat split; auto; congruence.
  - (* frame *)
    unfold frame. eff_unfold.
    destruct (existsb (Pos.eqb id) (scheduled d)) eqn:Hin; [|cbn; repeat split; auto].
    destruct L1 as [L1 | (La & id' & L1 & L1')]; [rewrite L1 in Hin; discriminate|].
    rewrite L1 in Hin. cbn in Hin. rewrite orb_false_r in Hin.
    apply Pos.eqb_eq in Hin. subst id'.
    rewrite analyze_active by exact La.
    cbn [Eff.final fst snd state config scheduled nextFrame eventListeners animationFrame].
    rewrite L1, filter_out_single.
    match goal with
    | |- context [Eff.final (processVoiceActivity ?l now) ?d0] =>
        pose proof (pva_frame l now d0) as F
    end.
    unfold Eff.final in *. destruct (processVoiceActivity _ now _) as [[u d1] t].
    cbn [fst snd] in *. cbn [state isActive isConnected] in F.
    destruct F as (_ & _ & _ & _ & F5 & F6 & _).
    cbn. repeat split.
    + right. split; [congruence|]. eexists. split; reflexivity.
    + intros _. congruence.
    + intros _. rewrite F6. apply L3. exact La.
Qed.

Lemma session_keeps_lifecycle ops : forall d,
  lifecycleOk d -> lifecycleOk (Eff.final (session ops) d).
Proof.
  induction ops as [|op rest IH]; intros d H; [exact H|].
  pose proof (perform_keeps_lifecycle op d H) as P.
  specialize (IH (Eff.final (perform op) d) P).
  unfold Eff.final in *. cbn [session]. eff_unfold.
  destruct (perform op d) as [[u d1] t]. cbn [fst snd] in *.
  destruct (session rest d1) as [[u' d2] t']. exact IH.
Qed.

(** X7: whatever the page and the frame clock do to a new detector
    (connect, start, stop, disconnect, frames coming due, in any order),
    at most one analysis frame is pending and only while the detector is
    active; voice is detected only on an active detector, and a detector
    is active only while connected. *)
Theorem one_analysis_loop_at_most cfg ops :
  let d := Eff.final (session ops) (create cfg) in
  (length (scheduled d) <= 1)%nat /\
  (scheduled d <> [] -> isActive (state d) = true) /\
  (isVoiceDetected (state d) = true -> isActive (state d) = true) /\
  (isActive (state d) = true -> isConnected (state d) = true).
Proof.
  intros d.
  assert (H : lifecycleOk d).
  { apply session_keeps_lifecycle. unfold lifecycleOk. cbn.
    repeat split; auto; discriminate. }
  destruct H as (L1 & L2 & L3). repeat split; auto.
  - destruct L1 as [-> | (_ & id & -> & _)]; cbn; lia.
  - intros Hne. destruct L1 as [L1 | (L1 & _)]; [congruence | exact L1].
Qed.

Lemma one_loop_witness :
  isActive
    (state (Eff.final
              (session [OpConnect true; OpStart fullBand 1000; OpFrame 1 fullBand 1100])
              (create scenarioConfig))) = true.
Proof.
  pose proof (one_analysis_loop_at_most scenarioConfig
                [OpConnect true; OpStart fullBand 1000; OpFrame 1 fullBand 1100]) as P.
  cbv zeta in P. destruct P as (_ & _ & P & _).
  apply P. vm_compute. reflexivity.
Defined.

Lemma session_app ops1 ops2 d :
  Eff.final (session (ops1 ++ ops2)) d =
  Eff.final (session ops2) (Eff.final (session ops1) d).
Proof.
  revert d. induction ops1 as [|op rest IH]; intros d; [reflexivity|].
  cbn [app session]. unfold Eff.final in *. eff_unfold.
  destruct (perform op d) as [[u d1] t]. specialize (IH d1).
  destruct (session (rest ++ ops2) d1) as [[u1 d2] t1].
  destruct (session rest d1) as [[u2 d3] t2]. cbn [fst snd] in *.
  destruct (session ops2 d3) as [[u3 d4] t3]. exact IH.
Qed.

(** X8: once [stop()] has been called, after whatever came before, the
    detector is inactive with no voice detected and no frame pending: any
    frame callback that still comes due, and [analyze] itself, change
    nothing and trigger nothing, so no event follows a [stop()] until the
    next [start()]. *)
Theorem nothing_runs_after_stop cfg ops :
  let d := Eff.final (session (ops ++ [OpStop])) (create cfg) in
  isActive (state d) = false /\
  isVoiceDetected (state d) = false /\
  scheduled d = [] /\
  (forall id data now, frame id data now d = (tt, d, [])) /\
  (forall data now, analyze data now d = (tt, d, [])).
Proof.
  intros d.
  assert (L : lifecycleOk d).
  { apply session_keeps_lifecycle. unfold lifecycleOk. cbn.
    repeat split; auto; discriminate. }
  assert (A : isActive (state d) = false).
  { subst d. rewrite session_app.
    set (d0 := Eff.final (session ops) (create cfg)). clearbody d0.
    unfold Eff.final. cbn [session perform]. eff_unfold.
    case_eq (isActive (state d0)); intros Ha.
    - pose proof (stop_active d0 Ha) as P. destruct (stop d0) as [[r d1] t].
      cbn. apply P.
    - rewrite (stop_inactive d0 Ha). exact Ha. }
  destruct L as (L1 & L2 & _).
  assert (S0 : scheduled d = []).
  { destruct L1 as [L1 | (L1 & _)]; [exact L1 | congruence]. }
  repeat split; auto.
  - destruct (isVoiceDetected (state d)); [|reflexivity].
    rewrite L2 in A by reflexivity. discriminate.
  - intros id data now. unfold frame. eff_unfold. rewrite S0. reflexivity.
  - intros data now. apply analyze_inactive. exact A.
Qed.


(** X9: [disconnect()] leaves the detector inactive and not connected,
    triggers one [voiceEnd] if it was active with voice detected and
    nothing otherwise, and a [start()] after it fails without effect.
    [destroy()] triggers the same events and then drops every listener. *)
Theorem disconnect_ends_voice_and_blocks_start d :
  let '(_, d1, t) := disconnect d in
  isActive (state d1) = false /\
  isConnected (state d1) = false /\
  map event t =
    (if isActive (state d) && isVoiceDetected (state d) then [VoiceEnd] else []) /\
  (forall data now, start data now d1 = (false, d1, [])) /\
  Eff.trace destroy d = t /\
  eventListeners (Eff.final destroy d) = ∅ /\
  state (Eff.final destroy d) = state d1.
Proof.
  unfold destroy, Eff.trace, Eff.final. eff_unfold.
  unfold disconnect, update, with_state. eff_unfold.
  case_eq (isActive (state d)); intros Ha.
  - pose proof (stop_active d Ha) as P. destruct (stop d) as [[r d1] t].
    destruct P as (_ & P2 & P3 & P4 & P5 & P6 & P7). cbn.
    rewrite !app_nil_r. repeat split; auto;
      intros data now; unfold start; eff_unfold; reflexivity.
  - rewrite (stop_inactive d Ha). cbn. repeat split; auto;
      intros data now; unfold start; eff_unfold; reflexivity.
Qed.

End Sessions.

(** ** The listener registry *)

Section Registry.
Import VAD.

Lemma listenersOf_on name cb d :
  listenersOf name (on name cb d) = listenersOf name d ++ [cb].
Proof.
  unfold listenersOf, on. cbn [eventListeners].
  rewrite lookup_insert_eq. reflexivity.
Qed.

Lemma listenersOf_on_other name name' cb d :
  name <> name' -> listenersOf name' (on name cb d) = listenersOf name' d.
Proof.
  intros H. unfold listenersOf, on. cbn [eventListeners].
  rewrite lookup_insert_ne by exact H. reflexivity.
Qed.

Lemma listenersOf_off name cb d :
  listenersOf name (off name cb d) = removeFirst cb (listenersOf name d).
Proof.
  unfold listenersOf, off.
  destruct (eventListeners d !! name) as [ls|] eqn:E.
  - cbn [eventListeners]. rewrite lookup_insert_eq. reflexivity.
  - rewrite E. reflexivity.
Qed.

Lemma listenersOf_off_other name name' cb d :
  name <> name' -> listenersOf name' (off name cb d) = listenersOf name' d.
Proof.
  intros H. unfold listenersOf, off.
  destruct (eventListeners d !! name) as [ls|] eqn:E; [|reflexivity].
  cbn [eventListeners]. rewrite lookup_insert_ne by exact H. reflexivity.
Qed.

Lemma removeFirst_absent cb ls : ~ In cb ls -> removeFirst cb ls = ls.
Proof.
  induction ls as [|l rest IH]; intros H; [reflexivity|].
  cbn. destruct (decide (l = cb)) as [->|Hne].
  - exfalso. apply H. left. reflexivity.
  - f_equal. apply IH. intros Hin. apply H. right. exact Hin.
Qed.

Lemma removeFirst_app_absent cb ls : ~ In cb ls -> removeFirst cb (ls ++ [cb]) = ls.
Proof.
  induction ls as [|l rest IH]; intros H; cbn.
  - destruct (decide (cb = cb)); [reflexivity | congruence].
  - destruct (decide (l = cb)) as [->|Hne].
    + exfalso. apply H. left. reflexivity.
    + f_equal. apply IH. intros Hin. apply H. right. exact Hin.
Qed.

Lemma removeFirst_count cb x ls :
  count_occ Listener_eq_dec (removeFirst cb ls) x =
  (count_occ Listener_eq_dec ls x - (if decide (x = cb) then (if In_dec Listener_eq_dec cb ls then 1 else 0) else 0))%nat.
Proof.
  induction ls as [|l rest IH].
  - cbn. destruct (decide (x = cb)); reflexivity.
  - cbn [removeFirst]. destruct (decide (l = cb)) as [->|Hne].
    + cbn [count_occ]. destruct (Listener_eq_dec cb x) as [->|Hx].
      * destruct (decide (x = x)); [|congruence].
        destruct (In_dec Listener_eq_dec x (x :: rest)) as [_|Hn]; [lia|].
        exfalso. apply Hn. left. reflexivity.
      * destruct (decide (x = cb)); [congruence|]. lia.
    + cbn [count_occ]. rewrite IH.
      destruct (Listener_eq_dec l x) as [->|Hx].
      * destruct (decide (x = cb)); [congruence|]. lia.
      * destruct (decide (x = cb)) as [->|]; [|reflexivity].
        destruct (In_dec Listener_eq_dec cb rest) as [Hi|Hn];
          destruct (In_dec Listener_eq_dec cb (l :: rest)) as [Hi'|Hn']; try reflexivity.
        -- exfalso. apply Hn'. right. exact Hi.
        -- destruct Hi' as [?|?]; [congruence | contradiction].
Qed.

(** X10: [on] appends the callback to the list of its event and [off]
    takes away the first registration of the callback in that list, if
    any; neither touches the list of another event, the state or the
    configuration.  So [off] after [on] restores the list when the
    callback was not registered before, [off] of a callback that is not
    registered changes no list, and a callback registered twice is still
    registered once after one [off]. *)
Theorem on_and_off_edit_one_list name cb d :
  listenersOf name (on name cb d) = listenersOf name d ++ [cb] /\
  listenersOf name (off name cb d) = removeFirst cb (listenersOf name d) /\
  (forall name', name <> name' ->
     listenersOf name' (on name cb d) = listenersOf name' d /\
     listenersOf name' (off name cb d) = listenersOf name' d) /\
  (~ In cb (listenersOf name d) ->
   listenersOf name (off name cb (on name cb d)) = listenersOf name d /\
   listenersOf name (off name cb d) = listenersOf name d) /\
  (forall x,
     count_occ Listener_eq_dec (listenersOf name (off name cb (on name cb (on name cb d)))) x =
     count_occ Listener_eq_dec (listenersOf name (on name cb d)) x) /\
  state (on name cb d) = state d /\ state (off name cb d) = state d /\
  config (on name cb d) = config d /\ config (off name cb d) = config d.
Proof.
  split; [apply listenersOf_on|]. split; [apply listenersOf_off|].
  split; [intros name' H; split;
          [apply listenersOf_on_other | apply listenersOf_off_other]; exact H|].
  split.
  - intros H. split.
    + rewrite listenersOf_off, listenersOf_on. apply removeFirst_app_absent. exact H.
    + rewrite listenersOf_off. apply removeFirst_absent. exact H.
  - split.
    + intros x. rewrite listenersOf_off, removeFirst_count, !listenersOf_on.
      rewrite !count_occ_app. cbn [count_occ].
      destruct (In_dec Listener_eq_dec cb ((listenersOf name d ++ [cb]) ++ [cb])) as [_|Hn].
      * destruct (decide (x = cb)) as [->|Hx].
        -- destruct (Listener_eq_dec cb cb); [lia | congruence].
        -- destruct (Listener_eq_dec cb x); [congruence | lia].
      * exfalso. apply Hn. apply in_or_app. right. left. reflexivity.
    + unfold on, off. destruct (eventListeners d !! name); repeat split.
Qed.

Lemma on_off_witness :
  listenersOf "voiceStart" (off "voiceStart" (Host 7) (on "voiceStart" (Host 7)
     (on "voiceStart" OrbPlay (create defaultConfig)))) = [OrbPlay].
Proof.
  pose proof (on_and_off_edit_one_list "voiceStart" (Host 7)
                (on "voiceStart" OrbPlay (create defaultConfig))) as (_ & _ & _ & P & _).
  destruct P as [P _].
  - vm_compute. intros [H|[]]. discriminate.
  - rewrite P. vm_compute. reflexivity.
Defined.

End Registry.

(** ** The controller over its lifetime *)

Section ControllerLife.
Import Core Vocab.

(** X11: a controller that is not ready refuses every control call:
    [play], [pause], [stop], [setSpeed], [setLoop], [setOpacity] and
    [setVoiceLevel] return failure, change nothing and trigger nothing.
    A new controller is not ready; [init] on an invalid element triggers
    [error], returns failure and changes nothing; [init] on the id of a
    missing element does the same but drops the player, so it leaves even
    a ready controller not ready; [destroy()]
    drops the player and the listeners, triggers [destroy] after both
    are gone, and leaves it not ready. *)
Theorem not_ready_refuses_every_call :
  (forall o op,
     isReady o = false -> op <> OpComplete -> perform op o = (false, o, [])) /\
  (forall cfg, isReady (create cfg) = false) /\
  (forall o id animationSource,
     let '(r, o1, t) := init (ById id None) animationSource o in
     r = false /\ isReady o1 = false /\ map event t = [Error]) /\
  (forall o animationSource,
     init Invalid animationSource o =
     (false, o, [ {| event := Error; seen := state o; seenPlayer := player o |} ])) /\
  (forall o,
     let '(_, o1, t) := destroy o in
     isReady o1 = false /\ player o1 = None /\ playerId o1 = None /\
     eventListeners o1 = ∅ /\ config o1 = config o /\
     t = [ {| event := Destroy; seen := state o1; seenPlayer := None |} ]).
Proof.
  split; [|split; [|split; [|split]]].
  - intros o op Hr Hop.
    destruct op; try congruence;
      unfold perform, play, pause, stop, setSpeed, setLoop, setOpacity, setVoiceLevel;
      eff_unfold; rewrite Hr; reflexivity.
  - intros cfg. reflexivity.
  - intros o id src. destruct o as [cfg st pl pid ls]. destruct st as [ini ? ? ? ? ?].
    unfold init, setPlayer, trigger, isReady. eff_unfold. cbn.
    repeat split. apply andb_false_r.
  - intros o src. unfold init, trigger. eff_unfold. reflexivity.
  - intros o. destruct o as [cfg st pl pid ls]. destruct st.
    unfold destroy, update, trigger. eff_unfold. cbn. repeat split.
Qed.

Lemma not_ready_witness :
  setSpeed 2 (create defaultConfig) = (false, create defaultConfig, []) /\
  Eff.result (init (ById "orb" None) None) (create defaultConfig) = false.
Proof.
  destruct not_ready_refuses_every_call as (P1 & _ & P3 & _).
  split.
  - apply (P1 (create defaultConfig) (OpSetSpeed 2)); [reflexivity | discriminate].
  - specialize (P3 (create defaultConfig) "orb"%string None).
    unfold Eff.result.
    destruct (init (ById "orb" None) None (create defaultConfig)) as [[r o1] t].
    apply P3.
Defined.

Lemma perform_keeps_mirrored op o :
  mirrored o -> mirrored (Eff.final (perform op) o).
Proof.
  intros (Hr & p & Hp & Hs & Hl).
  destruct o as [cfg st pl pid ls]. cbn in Hp. subst pl.
  unfold isReady in Hr. cbn in Hr. destruct st as [ini ? ? ? ? ?]. cbn in *.
  destruct ini; [|discriminate]. destruct p as [pb plo psp pop psrc]. cbn in *. subst.
  destruct op;
    unfold mirrored, Eff.final, perform, play, pause, stop, setSpeed, setLoop,
      setOpacity, setVoiceLevel, onComplete, onPlayer, update, trigger, isReady;
    eff_unfold; cbn;
    try (split; [reflexivity|]; eexists; repeat split).
  destruct isLooping0; cbn; (split; [reflexivity|]; eexists; repeat split).
Qed.

Lemma session_keeps_mirrored ops : forall o,
  mirrored o -> mirrored (Eff.final (session ops) o).
Proof.
  induction ops as [|op rest IH]; intros o H; [exact H|].
  pose proof (perform_keeps_mirrored op o H) as P.
  specialize (IH (Eff.final (perform op) o) P).
  unfold Eff.final in *. cbn [session]. eff_unfold.
  destruct (perform op o) as [[u o1] t]. cbn [fst snd] in *.
  destruct (session rest o1) as [[u' o2] t']. exact IH.
Qed.

(** X12: once [init] has succeeded on a new controller, after any
    sequence of control calls and [complete] events the controller is
    still ready and the player carries the speed and the loop mode of the
    controller's state: [player.speed = state.currentSpeed] and
    [player.loop = state.isLooping]. *)
Theorem player_mirrors_speed_and_loop cfg playerElement animationSource ops :
  Eff.result (init playerElement animationSource) (create cfg) = true ->
  let o := Eff.final (session ops)
             (Eff.final (init playerElement animationSource) (create cfg)) in
  isReady o = true /\
  exists p, player o = Some p /\
            speed p = currentSpeed (state o) /\
            loop p = isLooping (state o).
Proof.
  intros Hi o. apply session_keeps_mirrored.
  unfold mirrored, Eff.result, Eff.final in *.
  destruct playerElement as [id [p|] | p id |]; destruct animationSource;
    unfold init, initPlayer, setPlayer, onPlayer, update, trigger, isReady in *;
    eff_unfold; cbn in *; try discriminate;
    (split; [reflexivity|]; eexists; repeat split).
Qed.

Lemma mirror_witness :
  isReady (Eff.final (session [OpSetVoiceLevel 2; OpSetLoop false; OpPlay]) Spec.readyOrb)
  = true.
Proof.
  apply (player_mirrors_speed_and_loop defaultConfig (ById "orb" (Some Spec.element)) None
           [OpSetVoiceLevel 2; OpSetLoop false; OpPlay]).
  reflexivity.
Defined.

(** X13: with the default ranges, [setVoiceLevel(level)] on a ready
    controller leaves the speed equal to the voice level, both equal to
    [level] clamped to [[0.1, 3]], and the opacity within [[0.8, 1]]: 0.8
    for every level up to 1.6, [level / 2] between 1.6 and 2, and 1 from 2
    on. *)
Theorem default_voice_level_mapping o level :
  isReady o = true ->
  config o = defaultConfig ->
  let o1 := Eff.final (setVoiceLevel level) o in
  (currentSpeed (state o1) == voiceLevel (state o1))%Q /\
  voiceLevel (state o1) = clamp (1 # 10) 3 level /\
  (8 # 10 <= opacity (state o1))%Q /\ (opacity (state o1) <= 1)%Q /\
  ((level <= 16 # 10)%Q -> (opacity (state o1) == 8 # 10)%Q) /\
  ((16 # 10 <= level)%Q -> (level <= 2)%Q -> (opacity (state o1) == level / 2)%Q) /\
  ((2 <= level)%Q -> (opacity (state o1) == 1)%Q).
Proof.
  intros Hr Hc o1. subst o1.
  destruct o as [cfg st pl pid ls]. cbn in Hc. subst cfg.
  unfold isReady in Hr. cbn in Hr. destruct st as [ini ? ? ? ? ?]. cbn in Hr.
  destruct ini; [|discriminate]. destruct pl as [p|]; [|discriminate].
  unfold Eff.final, setVoiceLevel, setSpeed, onPlayer, update, trigger, isReady.
  eff_unfold. cbn.
  fold (clamp (1 # 10) 3 level).
  fold (clamp (1 # 10) 3 (clamp (1 # 10) 3 level)).
  fold (clamp (8 # 10) 1 (clamp (1 # 10) 3 level / 2)).
  assert (R : ((1 # 10) <= clamp (1 # 10) 3 level)%Q /\ (clamp (1 # 10) 3 level <= 3)%Q)
    by (apply clamp_range; lra).
  assert (H : (clamp (1 # 10) 3 level == level)%Q \/
              ((level <= 1 # 10)%Q /\ (clamp (1 # 10) 3 level == 1 # 10)%Q) \/
              ((3 <= level)%Q /\ (clamp (1 # 10) 3 level == 3)%Q)).
  { destruct (Qlt_le_dec level (1 # 10)) as [L|L].
    - right; left. split; [lra | apply clamp_below; lra].
    - destruct (Qlt_le_dec 3 level) as [U|U].
      + right; right. split; [lra | apply clamp_above; lra].
      + left. apply clamp_inside; lra. }
  set (c := clamp (1 # 10) 3 level) in *.
  split; [apply clamp_inside; apply R|]. split; [reflexivity|].
  clearbody c. unfold Qdiv in *. change (/ 2)%Q with (1 # 2)%Q in *.
  split; [apply clamp_range; lra|]. split; [apply clamp_range; lra|].
  split; [|split].
  - intros L. apply clamp_below; [lra|]. destruct H as [H | [[? H] | [? H]]]; lra.
  - intros L U. transitivity (c * (1 # 2))%Q.
    + apply clamp_inside; destruct H as [H | [[? H] | [? H]]]; lra.
    + destruct H as [H | [[? H] | [? H]]]; lra.
  - intros U. apply clamp_above; [lra|]. destruct H as [H | [[? H] | [? H]]]; lra.
Qed.

Lemma default_mapping_witness :
  (opacity (state (Eff.final (setVoiceLevel 1) Spec.readyOrb)) == 8 # 10)%Q.
Proof.
  apply (default_voice_level_mapping Spec.readyOrb 1); try reflexivity.
  vm_compute. discriminate.
Defined.

End ControllerLife.

(** ** The orchestrator at work *)

Section Orchestration.
Import Orchestrator Vocab.

Lemma perform_on_ready c o :
  Core.isReady o = true ->
  let o1 := Eff.final (perform c) o in
  Core.isReady o1 = true /\
  Core.isPlaying (Core.state o1) = playingAfter [c] (Core.isPlaying (Core.state o)).
Proof.
  intros Hr. destruct o as [cfg st pl pid ls].
  unfold Core.isReady in Hr. cbn in Hr. destruct st as [ini ? ? ? ? ?]. cbn in Hr.
  destruct ini; [|discriminate]. destruct pl as [p|]; [|discriminate].
  destruct c;
    unfold Eff.final, perform, Core.play, Core.pause, Core.setVoiceLevel, Core.setSpeed,
      Core.onPlayer, Core.update, Core.trigger, Core.isReady;
    eff_unfold; cbn; split; reflexivity.
Qed.

Lemma performAll_on_ready calls : forall o,
  Core.isReady o = true ->
  let o1 := Eff.final (performAll calls) o in
  Core.isReady o1 = true /\
  Core.isPlaying (Core.state o1) = playingAfter calls (Core.isPlaying (Core.state o)).
Proof.
  induction calls as [|c rest IH]; intros o Hr; [split; [exact Hr | reflexivity]|].
  pose proof (perform_on_ready c o Hr) as [P1 P2].
  specialize (IH (Eff.final (perform c) o) P1).
  unfold Eff.final in *. cbn [performAll]. eff_unfold.
  destruct (perform c o) as [[u o1] t]. cbn [fst snd] in *.
  destruct (performAll rest o1) as [[u' o2] t']. cbn [fst snd] in *.
  destruct IH as [I1 I2]. split; [exact I1|].
  rewrite I2, P2. reflexivity.
Qed.

Lemma calls_are_wired ls t :
  (forall m, triggered ls m = Spec.wired (VAD.event m)) ->
  concat (map (triggered ls) t) = flat_map Spec.wired (map VAD.event t).
Proof.
  intros W. rewrite flat_map_concat_map, map_map. f_equal. apply map_ext. exact W.
Qed.

(** One sample processed inside an orchestrator whose closures are the
    wired ones and whose controller is ready. *)
Lemma tick_keeps_step level now a v :
  vad a = Some v ->
  (forall m, triggered (VAD.eventListeners v) m = Spec.wired (VAD.event m)) ->
  Core.isReady (orb a) = true ->
  Core.isPlaying (Core.state (orb a)) = VAD.isVoiceDetected (VAD.state v) ->
  let a1 := snd (fst (fst (runVAD (VAD.processVoiceActivity level now) a))) in
  let v1 := Eff.final (VAD.processVoiceActivity level now) v in
  vad a1 = Some v1 /\
  Core.isReady (orb a1) = true /\
  Core.isPlaying (Core.state (orb a1)) = VAD.isVoiceDetected (VAD.state v1) /\
  isConnected a1 = isConnected a /\ isVADActive a1 = isVADActive a.
Proof.
  intros Hv W Hr Hp a1 v1. subst a1 v1. unfold runVAD. rewrite Hv.
  pose proof (pva_events level now v) as T.
  pose proof (pva_frame level now v) as F. unfold Eff.final in *.
  destruct (VAD.processVoiceActivity level now v) as [[u v1] t]. cbn [fst snd] in *.
  destruct F as (_ & F2 & _). rewrite F2, (calls_are_wired _ t W), T.
  match goal with
  | |- context [performAll ?cs (orb a)] =>
      pose proof (performAll_on_ready cs (orb a) Hr) as [P1 P2]
  end.
  unfold Eff.final in *. destruct (performAll _ (orb a)) as [[u' o1] te].
  cbn [fst snd vad orb isConnected isVADActive] in *.
  repeat split; auto. rewrite P2, Hp. unfold transition.
  destruct (VAD.isVoiceDetected (VAD.state v)), (VAD.isVoiceDetected (VAD.state v1));
    reflexivity.
Qed.

Lemma stop_keeps_listeners d :
  VAD.eventListeners (Eff.final VAD.stop d) = VAD.eventListeners d.
Proof.
  destruct d as [cfg st af ? ? ?]. destruct st as [act vd ? ? ? ? ? ?].
  unfold Eff.final, VAD.stop, VAD.update, VAD.trigger, VAD.with_state,
    VAD.cancelAnimationFrame, VAD.set_animationFrame.
  eff_unfold. destruct act, af, vd; reflexivity.
Qed.

Lemma stop_events d :
  map VAD.event (Eff.trace VAD.stop d) =
  transition (VAD.isVoiceDetected (VAD.state d))
             (VAD.isVoiceDetected (VAD.state (Eff.final VAD.stop d))).
Proof.
  destruct d as [cfg st af ? ? ?]. destruct st as [act vd ? ? ? ? ? ?].
  unfold Eff.final, Eff.trace, VAD.stop, VAD.update, VAD.trigger, VAD.with_state,
    VAD.cancelAnimationFrame, VAD.set_animationFrame.
  eff_unfold. destruct act, af, vd; reflexivity.
Qed.

Lemma stop_keeps_step a v :
  vad a = Some v ->
  (forall m, triggered (VAD.eventListeners v) m = Spec.wired (VAD.event m)) ->
  Core.isReady (orb a) = true ->
  Core.isPlaying (Core.state (orb a)) = VAD.isVoiceDetected (VAD.state v) ->
  let a1 := snd (fst (fst (runVAD VAD.stop a))) in
  let v1 := Eff.final VAD.stop v in
  vad a1 = Some v1 /\
  Core.isReady (orb a1) = true /\
  Core.isPlaying (Core.state (orb a1)) = VAD.isVoiceDetected (VAD.state v1).
Proof.
  intros Hv W Hr Hp a1 v1. subst a1 v1. unfold runVAD. rewrite Hv.
  pose proof (stop_events v) as T. pose proof (stop_keeps_listeners v) as F.
  unfold Eff.final, Eff.trace in *.
  destruct (VAD.stop v) as [[u v1] t]. cbn [fst snd] in *.
  rewrite F, (calls_are_wired _ t W), T.
  match goal with
  | |- context [performAll ?cs (orb a)] =>
      pose proof (performAll_on_ready cs (orb a) Hr) as [P1 P2]
  end.
  unfold Eff.final in *. destruct (performAll _ (orb a)) as [[u' o1] te].
  cbn [fst snd vad orb] in *.
  repeat split; auto. rewrite P2, Hp. unfold transition.
  destruct (VAD.isVoiceDetected (VAD.state v)), (VAD.isVoiceDetected (VAD.state v1));
    reflexivity.
Qed.

(** X14: in an orchestrator whose detector carries the closures of
    [setupVADHandlers] and whose controller is ready, if the controller
    plays exactly when voice is detected, then it still does after the
    detector has processed any run of samples, and after a [stop()] of the
    detector that follows: every [voiceStart] has reached [play()] and
    every [voiceEnd] [pause()], so the animation plays exactly while voice
    is detected. *)
Theorem animation_plays_while_voice_is_detected samples : forall a v,
  vad a = Some v ->
  (forall m, triggered (VAD.eventListeners v) m = Spec.wired (VAD.event m)) ->
  Core.isReady (orb a) = true ->
  Core.isPlaying (Core.state (orb a)) = VAD.isVoiceDetected (VAD.state v) ->
  let a1 := through samples a in
  let v1 := fst (VAD.feed samples v) in
  let a2 := snd (fst (fst (runVAD VAD.stop a1))) in
  vad a1 = Some v1 /\
  Core.isReady (orb a1) = true /\
  Core.isPlaying (Core.state (orb a1)) = VAD.isVoiceDetected (VAD.state v1) /\
  vad a2 = Some (Eff.final VAD.stop v1) /\
  Core.isPlaying (Core.state (orb a2)) =
  VAD.isVoiceDetected (VAD.state (Eff.final VAD.stop v1)).
Proof.
  induction samples as [|[level now] rest IH]; intros a v Hv W Hr Hp.
  - cbn [through VAD.feed fst].
    pose proof (stop_keeps_step a v Hv W Hr Hp) as (S1 & _ & S3).
    repeat split; auto.
  - cbn [through]. rewrite feed_cons.
    pose proof (tick_keeps_step level now a v Hv W Hr Hp) as (T1 & T2 & T3 & _).
    pose proof (pva_frame level now v) as F.
    unfold Eff.final in T1, T3, F.
    destruct (VAD.processVoiceActivity level now v) as [[u v1] t]. cbn [fst snd] in *.
    destruct F as (_ & F2 & _).
    assert (W1 : forall m, triggered (VAD.eventListeners v1) m = Spec.wired (VAD.event m))
      by (rewrite F2; exact W).
    specialize (IH _ v1 T1 W1 T2 T3).
    destruct (VAD.feed rest v1) as [v2 ts]. exact IH.
Qed.

Lemma animation_witness :
  Core.isPlaying
    (Core.state
       (orb (through [(Spec.loud, 1000); (Spec.loud, 1100)]
               (mkAdvanced Spec.readyOrb
                  (vad (create Core.defaultConfig (Some Spec.scenarioConfig)))
                  false false)))) = true.
Proof.
  pose proof (animation_plays_while_voice_is_detected
                [(Spec.loud, 1000); (Spec.loud, 1100)]
                (mkAdvanced Spec.readyOrb
                   (vad (create Core.defaultConfig (Some Spec.scenarioConfig)))
                   false false)
                _ eq_refl) as P.
  cbv zeta in P. destruct P as (_ & _ & P & _).
  - intros [e st]. destruct e; reflexivity.
  - reflexivity.
  - reflexivity.
  - rewrite P. vm_compute. reflexivity.
Defined.

Lemma runVAD_some {A} (m : VAD.M A) a v :
  vad a = Some v ->
  exists calls es,
    runVAD m a =
    (Some (Eff.result m v),
     mkAdvanced (Eff.final (performAll calls) (orb a)) (Some (Eff.final m v))
                (isConnected a) (isVADActive a),
     calls, es).
Proof.
  intros Hv. unfold runVAD, Eff.result, Eff.final. rewrite Hv.
  destruct (m v) as [[r v1] t]. cbn [fst snd].
  exists (concat (map (triggered (VAD.eventListeners v1)) t)).
  destruct (performAll _ (orb a)) as [[u o1] te]. cbn [fst snd].
  eexists. reflexivity.
Qed.

Lemma start_result data now d :
  Eff.result (VAD.start data now) d = VAD.isConnected (VAD.state d) /\
  (VAD.isConnected (VAD.state d) = true ->
   VAD.isActive (VAD.state (Eff.final (VAD.start data now) d)) = true /\
   VAD.isConnected (VAD.state (Eff.final (VAD.start data now) d)) = true).
Proof.
  case_eq (VAD.isConnected (VAD.state d)); intros Hc.
  - case_eq (VAD.isActive (VAD.state d)); intros Ha.
    + unfold Eff.result, Eff.final, VAD.start. eff_unfold. rewrite Hc, Ha.
      cbn. repeat split; auto.
    + unfold Eff.result, Eff.final. rewrite (start_fresh data now d Hc Ha).
      cbn [fst snd]. split; [reflexivity|]. intros _.
      set (d0 := VAD.with_state _ d).
      assert (A0 : VAD.isActive (VAD.state d0) = true) by reflexivity.
      assert (C0 : VAD.isConnected (VAD.state d0) = true) by exact Hc.
      pose proof (pva_frame (normalizedLevel (VAD.config d0) data) now d0) as F.
      clearbody d0. unfold Eff.final. rewrite (analyze_active data now d0 A0).
      unfold Eff.final in *.
      destruct (VAD.processVoiceActivity _ now d0) as [[u d1] t]. cbn [fst snd] in *.
      destruct F as (_ & _ & _ & _ & F5 & F6 & _). cbn [VAD.state]. split; congruence.
  - unfold Eff.result, Eff.final, VAD.start. eff_unfold. rewrite Hc. cbn.
    split; [reflexivity | discriminate].
Qed.

(** X15: [connectMicrophone] succeeds exactly when microphone access is
    granted.  On success the orchestrator is connected with the detector
    driving: the detector is connected and active, and [play()],
    [pause()] and [stop()] of the orchestrator are refused without touching
    anything.  On failure the two flags of the orchestrator stay as they
    were. *)
Theorem connectMicrophone_follows_the_grant a vadOptions granted data now :
  let '(r, a1, calls, es) := connectMicrophone vadOptions granted data now a in
  r = granted /\
  (granted = true ->
   isConnected a1 = true /\ isVADActive a1 = true /\
   (exists v, vad a1 = Some v /\
              VAD.isConnected (VAD.state v) = true /\
              VAD.isActive (VAD.state v) = true) /\
   play a1 = (false, a1, []) /\
   pause a1 = (false, a1, []) /\
   stop a1 = (false, a1, [])) /\
  (granted = false ->
   isConnected a1 = isConnected a /\ isVADActive a1 = isVADActive a).
Proof.
  unfold connectMicrophone.
  set (a1 := match vad a with Some _ => a | None => _ end).
  assert (H1 : exists v1, vad a1 = Some v1 /\ isConnected a1 = isConnected a /\
                          isVADActive a1 = isVADActive a).
  { subst a1. destruct (vad a) as [v|] eqn:E.
    - exists v. auto.
    - unfold setupVADHandlers, set_vad. cbn [vad]. eexists. repeat split. }
  destruct H1 as (v1 & Hv1 & Hc1 & Ha1). clearbody a1.
  set (a2 := if VAD.hasKeys vadOptions then _ else a1).
  assert (H2 : exists v2, vad a2 = Some v2 /\ isConnected a2 = isConnected a /\
                          isVADActive a2 = isVADActive a).
  { subst a2. destruct (VAD.hasKeys vadOptions).
    - unfold set_vad. cbn. rewrite Hv1. cbn. eexists. repeat split; assumption.
    - exists v1. auto. }
  destruct H2 as (v2 & Hv2 & Hc2 & Ha2). clearbody a2.
  destruct (runVAD_some (VAD.connect granted) a2 v2 Hv2) as (c1 & e1 & R1).
  rewrite R1.
  assert (G : Eff.result (VAD.connect granted) v2 = granted /\
              (granted = true ->
               VAD.isConnected (VAD.state (Eff.final (VAD.connect granted) v2)) = true)).
  { destruct v2 as [cfg st ? ? ? ?]. destruct st.
    unfold Eff.result, Eff.final, VAD.connect, VAD.update, VAD.trigger, VAD.with_state.
    eff_unfold. destruct granted; cbn; split; intros; try discriminate; reflexivity. }
  destruct G as [G1 G2]. rewrite G1.
  destruct granted; cbn [default].
  - specialize (G2 eq_refl).
    set (v3 := Eff.final (VAD.connect true) v2) in *. clearbody v3.
    match goal with
    | |- context [runVAD (VAD.start data now) ?a4] =>
        destruct (runVAD_some (VAD.start data now) a4 v3 eq_refl) as (c2 & e2 & R2);
        rewrite R2
    end.
    destruct (start_result data now v3) as [S1 S2]. rewrite S1, G2. cbn [default].
    destruct (S2 G2) as [S3 S4].
    split; [reflexivity|]. split; [|discriminate]. intros _.
    cbn. repeat split; auto. eexists. repeat split; eauto.
  - split; [reflexivity|]. split; [discriminate|]. intros _.
    cbn. split; assumption.
Qed.

Lemma connect_witness :
  isVADActive
    (snd (fst (fst (connectMicrophone VAD.noOptions true Spec.fullBand 1000
                      (create Core.defaultConfig None))))) = true.
Proof.
  pose proof (connectMicrophone_follows_the_grant
                (create Core.defaultConfig None) VAD.noOptions true Spec.fullBand 1000) as P.
  destruct (connectMicrophone VAD.noOptions true Spec.fullBand 1000
              (create Core.defaultConfig None)) as [[[r a1] calls] es].
  destruct P as (_ & P & _). apply P. reflexivity.
Defined.




Lemma spread_twice cfg p : VAD.spread (VAD.spread cfg p) p = VAD.spread cfg p.
Proof.
  destruct cfg, p as [[?|] [?|] [?|] [?|] [?|] [?|] [?|]]; reflexivity.
Qed.

Lemma spread_nothing cfg p : VAD.hasKeys p = false -> VAD.spread cfg p = cfg.
Proof.
  destruct cfg, p as [[?|] [?|] [?|] [?|] [?|] [?|] [?|]]; intros H;
    try discriminate; reflexivity.
Qed.

Lemma connect_keeps_config granted d :
  VAD.config (Eff.final (VAD.connect granted) d) = VAD.config d /\
  VAD.eventListeners (Eff.final (VAD.connect granted) d) = VAD.eventListeners d.
Proof.
  destruct d as [cfg st ? ? ? ?]. destruct st.
  unfold Eff.final, VAD.connect, VAD.update, VAD.trigger, VAD.with_state.
  eff_unfold. destruct granted; split; reflexivity.
Qed.

Lemma start_keeps_config data now d :
  VAD.config (Eff.final (VAD.start data now) d) = VAD.config d /\
  VAD.eventListeners (Eff.final (VAD.start data now) d) = VAD.eventListeners d.
Proof.
  case_eq (VAD.isConnected (VAD.state d)); intros Hc.
  - case_eq (VAD.isActive (VAD.state d)); intros Ha.
    + unfold Eff.final, VAD.start. eff_unfold. rewrite Hc, Ha. split; reflexivity.
    + unfold Eff.final. rewrite (start_fresh data now d Hc Ha). cbn [fst snd].
      set (d0 := VAD.with_state _ d).
      assert (A0 : VAD.isActive (VAD.state d0) = true) by reflexivity.
      assert (C0 : VAD.config d0 = VAD.config d) by reflexivity.
      assert (L0 : VAD.eventListeners d0 = VAD.eventListeners d) by reflexivity.
      pose proof (pva_frame (normalizedLevel (VAD.config d0) data) now d0) as F.
      clearbody d0. unfold Eff.final. rewrite (analyze_active data now d0 A0).
      unfold Eff.final in *.
      destruct (VAD.processVoiceActivity _ now d0) as [[u d1] t]. cbn [fst snd] in *.
      destruct F as (F1 & F2 & _). cbn. split; congruence.
  - unfold Eff.final, VAD.start. eff_unfold. rewrite Hc. split; reflexivity.
Qed.

(** X17: the detector an orchestrator has after [connectMicrophone]
    carries the given options laid over the configuration it had, or over
    the defaults if [connectMicrophone] had to create it; a detector it
    created carries the closures of [setupVADHandlers], and one it found
    keeps the listeners it had. *)
Theorem connectMicrophone_configures_the_detector a vadOptions granted data now :
  let a1 := snd (fst (fst (connectMicrophone vadOptions granted data now a))) in
  exists v,
    vad a1 = Some v /\
    VAD.config v =
      VAD.spread (match vad a with
                  | Some v0 => VAD.config v0
                  | None => VAD.defaultConfig
                  end) vadOptions /\
    match vad a with
    | Some v0 => VAD.eventListeners v = VAD.eventListeners v0
    | None => forall m, triggered (VAD.eventListeners v) m = Spec.wired (VAD.event m)
    end.
Proof.
  unfold connectMicrophone.
  set (base := match vad a with Some v0 => VAD.config v0 | None => VAD.defaultConfig end).
  set (a1 := match vad a with Some _ => a | None => _ end).
  assert (H1 : exists v1, vad a1 = Some v1 /\
                 (VAD.config v1 = base \/ VAD.config v1 = VAD.spread base vadOptions) /\
                 match vad a with
                 | Some v0 => VAD.eventListeners v1 = VAD.eventListeners v0
                 | None => forall m, triggered (VAD.eventListeners v1) m = Spec.wired (VAD.event m)
                 end).
  { subst a1 base. destruct (vad a) as [v|] eqn:E.
    - exists v. rewrite E. auto.
    - unfold setupVADHandlers, set_vad. cbn [vad]. eexists. split; [reflexivity|].
      split; [right; reflexivity|]. intros [e st]. destruct e; reflexivity. }
  destruct H1 as (v1 & Hv1 & Hc1 & Hl1). clearbody a1.
  set (a2 := if VAD.hasKeys vadOptions then _ else a1).
  assert (H2 : exists v2, vad a2 = Some v2 /\
                 VAD.config v2 = VAD.spread base vadOptions /\
                 VAD.eventListeners v2 = VAD.eventListeners v1).
  { subst a2. destruct (VAD.hasKeys vadOptions) eqn:K.
    - unfold set_vad. cbn. rewrite Hv1. cbn. eexists. split; [reflexivity|].
      split; [|reflexivity]. cbn. destruct Hc1 as [-> | ->]; [reflexivity | apply spread_twice].
    - exists v1. split; [exact Hv1|]. split; [|reflexivity].
      destruct Hc1 as [-> | ->]; [|reflexivity]. symmetry. apply spread_nothing. exact K. }
  destruct H2 as (v2 & Hv2 & Hc2 & Hl2). clearbody a2.
  destruct (runVAD_some (VAD.connect granted) a2 v2 Hv2) as (c1 & e1 & R1).
  rewrite R1.
  destruct (connect_keeps_config granted v2) as [K1 K2].
  set (v3 := Eff.final (VAD.connect granted) v2) in *. clearbody v3.
  assert (L3 : match vad a with
               | Some v0 => VAD.eventListeners v3 = VAD.eventListeners v0
               | None => forall m, triggered (VAD.eventListeners v3) m = Spec.wired (VAD.event m)
               end).
  { rewrite K2, Hl2. exact Hl1. }
  destruct (default false (Some (Eff.result (VAD.connect granted) v2))).
  - match goal with
    | |- context [runVAD (VAD.start data now) ?a4] =>
        destruct (runVAD_some (VAD.start data now) a4 v3 eq_refl) as (c2 & e2 & R2);
        rewrite R2
    end.
    destruct (start_keeps_config data now v3) as [S1 S2].
    exists (Eff.final (VAD.start data now) v3).
    split; [destruct (default false _); reflexivity|].
    split; [congruence|]. rewrite S2. exact L3.
  - exists v3. split; [reflexivity|]. split; [congruence | exact L3].
Qed.



End Orchestration.

(** ** The speed table of the legacy interface *)

Section SpeedTable.
Import Legacy.

Lemma indexOf_range x l : -1 <= indexOf x l < Z.of_nat (length l).
Proof.
  induction l as [|y rest IH]; cbn [indexOf length]; [lia|].
  destruct (Qeq_bool y x); [lia|].
  destruct (indexOf x rest <? 0) eqn:E; [lia|].
  apply Z.ltb_ge in E. lia.
Qed.

Lemma indexOf_absent x l :
  List.Forall (fun y => ~ (y == x)%Q) l -> indexOf x l = -1.
Proof.
  induction 1 as [|y rest Hy _ IH]; cbn [indexOf]; [reflexivity|].
  destruct (Qeq_bool y x) eqn:E; [apply Qeq_bool_iff in E; contradiction|].
  rewrite IH. reflexivity.
Qed.

(** X19: [changeSpeed] always moves to a speed of its table: from a
    speed of the table to the next one, from the last to the first, and
    from any speed that is not in the table to the first, 0.5; five presses
    from a table speed come back to it.  Every table speed lies within the
    default range [[0.1, 3]], so on a ready controller with the default
    configuration the speed set is the table speed itself. *)
Theorem changeSpeed_cycles_the_table :
  (forall s, In (nextSpeed s) speeds) /\
  map nextSpeed speeds = [1; 3 # 2; 2; 3; 1 # 2]%Q /\
  (forall s, List.Forall (fun y => ~ (y == s)%Q) speeds -> nextSpeed s = (1 # 2)%Q) /\
  (forall s, In s speeds ->
     nextSpeed (nextSpeed (nextSpeed (nextSpeed (nextSpeed s)))) = s) /\
  (forall o s,
     Core.isReady o = true -> Core.config o = Core.defaultConfig ->
     let '(r, o1, t) := changeSpeed s o in
     (r == nextSpeed s)%Q /\
     (Core.currentSpeed (Core.state o1) == nextSpeed s)%Q /\
     option_map Core.speed (Core.player o1) = Some (Core.currentSpeed (Core.state o1))).
Proof.
  assert (T : forall s, In (nextSpeed s) speeds).
  { intros s. unfold nextSpeed. apply nth_In.
    pose proof (indexOf_range s speeds) as R.
    pose proof (Z.mod_pos_bound (indexOf s speeds + 1) (Z.of_nat (length speeds))) as B.
    cbn [length speeds] in *. lia. }
  split; [exact T|]. split; [reflexivity|]. split; [|split].
  - intros s H. unfold nextSpeed. rewrite (indexOf_absent s speeds H). reflexivity.
  - intros s H. cbn in H.
    destruct H as [<-|[<-|[<-|[<-|[<-|[]]]]]]; reflexivity.
  - intros o s Hr Hc. destruct o as [cfg st pl pid ls]. cbn in Hc. subst cfg.
    unfold Core.isReady in Hr. cbn in Hr. destruct st as [ini ? ? ? ? ?]. cbn in Hr.
    destruct ini; [|discriminate]. destruct pl as [p|]; [|discriminate].
    assert (E : forall n, In n speeds -> (Core.clamp (1 # 10) 3 n == n)%Q).
    { intros n H. cbn in H. destruct H as [<-|[<-|[<-|[<-|[<-|[]]]]]]; reflexivity. }
    specialize (E _ (T s)). unfold changeSpeed.
    set (n := nextSpeed s) in *. clearbody n.
    unfold Core.setSpeed, Core.onPlayer, Core.update, Core.trigger, Core.isReady.
    eff_unfold. cbn. fold (Core.clamp (1 # 10) 3 n).
    repeat split; assumption.
Qed.

Lemma changeSpeed_witness :
  nextSpeed 3 = (1 # 2)%Q /\
  (Core.currentSpeed (Core.state (Eff.final (changeSpeed 3) Spec.readyOrb)) == 1 # 2)%Q.
Proof.
  destruct changeSpeed_cycles_the_table as (_ & _ & _ & P4 & P5).
  split; [reflexivity|].
  specialize (P5 Spec.readyOrb 3%Q eq_refl eq_refl). unfold Eff.final.
  destruct (changeSpeed 3 Spec.readyOrb) as [[r o1] t].
  destruct P5 as (_ & P & _). rewrite P. reflexivity.
Defined.

End SpeedTable.
